(** * Informer attention: dense and ProbSparse attention over real tensors

    Shallow embedding of [src/models/attn.py] and [src/utils/masking.py].

    Tensors are nested lists, outermost axis first; their elements are real
    numbers (the idealisation of the backend's floats: no rounding, and the
    only non-finite value is the [-inf] written by masking).  Random draws
    are explicit arguments.  A call that does not produce a value ends in a
    value of [error]. *)

From Stdlib Require Import Reals Lra Lia ZArith.
From stdpp Require Import base list.

Open Scope R_scope.

(** ** Numeric backend *)

Module Backend.

(** What ends a call without a value: the Python exception raised, or
    [Undefined] where the backend reads outside a tensor without a bounds
    check, so that no exception is raised and the source does not determine
    what is read. *)
Inductive error : Type :=
| AssertionError
| AttributeError
| IndexError
| ValueError
| Undefined.

Inductive result (A : Type) : Type :=
| Ok (a : A)
| Err (e : error).
Arguments Ok {A} a.
Arguments Err {A} e.

Definition bind {A B : Type} (m : result A) (k : A -> result B) : result B :=
  match m with
  | Ok a => k a
  | Err e => Err e
  end.

Fixpoint mapM {A B : Type} (f : A -> result B) (l : list A) : result (list B) :=
  match l with
  | [] => Ok []
  | x :: l' =>
      bind (f x) (fun y => bind (mapM f l') (fun ys => Ok (y :: ys)))
  end.

(** [l[i]] for an integer [i], with its bounds check (indices are never
    negative here). *)
Definition getitem {A : Type} (l : list A) (i : nat) : result A :=
  match l !! i with
  | Some a => Ok a
  | None => Err IndexError
  end.

(** One read of a gather by a tensor of indices.  The backend does not check
    the index: inside the tensor the entry is read, outside it nothing is
    raised and what comes back is not determined. *)
Definition gather {A : Type} (l : list A) (i : nat) : result A :=
  match l !! i with
  | Some a => Ok a
  | None => Err Undefined
  end.

(** A tensor of rank [n], as nested lists. *)
Fixpoint tensor (A : Type) (n : nat) : Type :=
  match n with
  | O => A
  | S n' => list (tensor A n')
  end.

(** [paddle.div(x, y)]: the backend has no function of this name (its
    division is [paddle.divide]), so the call ends in an AttributeError
    whatever its arguments. *)
Definition div (x : list (list (list R))) (y : nat)
    : result (list (list (list R))) :=
  Err AttributeError.

(** Shapes: a dimension below an empty axis reads as 0. *)
Definition dim1 {A} (t : list (list A)) : nat := length (default [] (head t)).
Definition dim2 {A} (t : list (list (list A))) : nat := dim1 (default [] (head t)).
Definition dim3 {A} (t : list (list (list (list A)))) : nat :=
  dim2 (default [] (head t)).

Definition Rsum (l : list R) : R := foldr Rplus 0 l.

(** Contraction of the last axis of two vectors. *)
Definition dot (u v : list R) : R := Rsum (zip_with Rmult u v).

(** [matmul(A, B.transpose(-2, -1))] on one matrix: rows of [A] against rows of [B]. *)
Definition matmul_T (A B : list (list R)) : list (list R) :=
  map (fun a => map (dot a) B) A.

Definition vadd (u v : list R) : list R := zip_with Rplus u v.
Definition vscale (c : R) (v : list R) : list R := map (Rmult c) v.

(** One row of [matmul(A, V)]: the combination of the rows of [V] (width
    [D]) weighted by [a]. *)
Definition lincomb (D : nat) (a : list R) (V : list (list R)) : list R :=
  foldr vadd (replicate D 0) (zip_with vscale a V).

Definition matmul (D : nat) (A V : list (list R)) : list (list R) :=
  map (fun a => lincomb D a V) A.

(** Exchange of the two axes of a matrix whose rows have [n] entries. *)
Definition transpose {A} (n : nat) (m : list (list A)) : list (list A) :=
  map (fun j => omap (fun row => row !! j) m) (seq 0 n).

(** [x.max(-1)] on one row; the reduction of an empty axis is refused. *)
Fixpoint row_max (row : list R) : result R :=
  match row with
  | [] => Err ValueError
  | [x] => Ok x
  | x :: rest => bind (row_max rest) (fun m => Ok (Rmax x m))
  end.

(** Scores after masking: a real, or the [-inf] put in by [paddle.where]. *)
Inductive score : Type :=
| Fin (x : R)
| NegInf.

(** [exp] on scores, with [exp(-inf) = 0]. *)
Definition exps (s : score) : R :=
  match s with
  | Fin x => exp x
  | NegInf => 0
  end.

(** [F.softmax(row, axis=-1)] on one row. *)
Definition softmax (row : list score) : list R :=
  map (fun s => exps s / Rsum (map exps row)) row.

(** [c * s] for a positive factor [c]: [-inf] stays [-inf]. *)
Definition score_scale (c : R) (s : score) : score :=
  match s with
  | Fin x => Fin (c * x)
  | NegInf => NegInf
  end.

(** [paddle.where(mask, -inf * ones_like(x), x)] on one row. *)
Definition where_neginf (mask : list bool) (row : list R) : list score :=
  zip_with (fun (m : bool) x => if m then NegInf else Fin x) mask row.

(** [ones([L, S], dtype=bool).triu(1)]: true strictly above the diagonal. *)
Definition triu1 (L S : nat) : list (list bool) :=
  map (fun i => map (fun j => bool_decide (i < j)%nat) (seq 0 S)) (seq 0 L).

(** The random source of [paddle.randint]: one raw natural per position. *)
Definition rng := nat -> nat -> nat.

(** [paddle.randint(high=high, shape=[n, k])]. *)
Definition randint (g : rng) (high n k : nat) : list (list nat) :=
  map (fun q => map (fun s => (g q s mod high)%nat) (seq 0 k)) (seq 0 n).

(** The state of an [nn.Dropout] layer at a call: evaluation mode, or
    training mode with the keep decisions drawn for this call
    (axes [B][H][L][S]). *)
Inductive dropout_state : Type :=
| Eval
| Train (keep : list (list (list (list bool)))).

(** [nn.Dropout(p)] in its default [upscale_in_train] mode. *)
Definition dropout (p : R) (st : dropout_state)
    (A : list (list (list (list R)))) : list (list (list (list R))) :=
  match st with
  | Eval => A
  | Train keep =>
      zip_with (zip_with (zip_with (zip_with
        (fun (k : bool) a => if k then a / (1 - p) else 0)))) keep A
  end.

(** Index of the largest entry among the candidates; the earliest candidate
    wins a tie. *)
Fixpoint argmax (row : list R) (best : nat) (cands : list nat) : nat :=
  match cands with
  | [] => best
  | c :: cands' =>
      if Rlt_dec (default 0 (row !! best)) (default 0 (row !! c))
      then argmax row c cands'
      else argmax row best cands'
  end.

Fixpoint select_top (row : list R) (k : nat) (cands : list nat) : list nat :=
  match k, cands with
  | S k', c :: cands' =>
      let i := argmax row c cands' in
      i :: select_top row k' (filter (fun j => j <> i) cands)
  | _, _ => []
  end.

(** [row.topk(k, sorted=False)[1]]: the indices of the [k] largest entries.
    Asking for more entries than the row has is refused. *)
Definition topk_indices (row : list R) (k : nat) : result (list nat) :=
  if decide (k <= length row)%nat
  then Ok (select_top row k (seq 0 (length row)))
  else Err ValueError.

End Backend.

Import Backend.

Notation "x <- m ;; k" := (bind m (fun x => k))
  (at level 20, m at level 99, k at level 200).
Notation "' p <- m ;; k" := (bind m (fun x => match x with p => k end))
  (at level 20, p pattern, m at level 99, k at level 200).

Module Tensor.

(** [mapM] over two lists in step. *)
Fixpoint mapM2 {A B C : Type} (f : A -> B -> result C)
    (l1 : list A) (l2 : list B) : result (list C) :=
  match l1, l2 with
  | x :: l1', y :: l2' =>
      z <- f x y ;; zs <- mapM2 f l1' l2' ;; Ok (z :: zs)
  | _, _ => Ok []
  end.

(** [x.transpose(swap_shape(x, 2, 1))].

    Modelled from the spec: [swap_shape] of [src/utils/tools.py], which
    gives the permutation exchanging the sequence axis 1 and the head
    axis 2 ([B,L,H,D] to [B,H,L,D] and back). *)
Definition swap12 {A} (t : list (list (list A))) : list (list (list A)) :=
  map (transpose (dim2 t)) t.

(** [paddle.einsum("blhe,bshe->bhls", q, k)]: per batch and head, the
    queries against the keys. *)
Definition einsum_blhe_bshe_bhls (q k : list (list (list (list R))))
    : list (list (list (list R))) :=
  zip_with (zip_with matmul_T) (swap12 q) (swap12 k).

(** [paddle.einsum("bhls,bshd->blhd", A, v)] for values of width [D]. *)
Definition einsum_bhls_bshd_blhd (D : nat) (A v : list (list (list (list R))))
    : list (list (list (list R))) :=
  swap12 (zip_with (zip_with (matmul D)) A (swap12 v)).

(** [x.index_sample(index)].  The backend defines it on a matrix [x] and a
    matrix [index] of column positions, [out[i][j] = x[i][index[i][j]]],
    and refuses a position outside the row; an input of any other rank is
    refused with a ValueError before anything is read. *)
Definition index_sample {n : nat}
    : tensor R n -> tensor nat n -> result (tensor R n) :=
  match n with
  | 2%nat => fun x index =>
      mapM2 (fun (row : list R) (ix : list nat) =>
               mapM (fun j => match row !! j with
                              | Some a => Ok a
                              | None => Err ValueError
                              end) ix)
            x index
  | _ => fun _ _ => Err ValueError
  end.

(** Assignment of [vals] to the rows [idx] of one matrix, in order.  The
    backend does not check the positions: a row outside the matrix is
    dropped without an exception. *)
Fixpoint set_rows {A} (rows : list A) (idx : list nat) (vals : list A)
    : list A :=
  match idx, vals with
  | i :: idx', v :: vals' => set_rows (<[i := v]> rows) idx' vals'
  | _, _ => rows
  end.

(** [t[arange(B)[:, None, None], arange(H)[None, :, None], index, :] = vals]. *)
Definition setitem_rows {A} (t : list (list (list A)))
    (index : list (list (list nat))) (vals : list (list (list A)))
    : list (list (list A)) :=
  zip_with (zip_with (fun th (iv : list nat * list A) => set_rows th iv.1 iv.2))
           t (zip_with zip index vals).

(** [t[arange(B)[:, None, None], arange(H)[None, :, None], index, :]]. *)
Definition getitem_rows {A} (t : list (list (list A)))
    (index : list (list (list nat))) : result (list (list (list A))) :=
  mapM2 (mapM2 (fun th ih => mapM (gather th) ih)) t index.

(** [m.mean(axis=-2)] of one matrix with rows of width [D]. *)
Definition mean_rows (D : nat) (m : list (list R)) : list R :=
  map (fun x => x / INR (length m)) (foldr vadd (replicate D 0) m).

Fixpoint cumsum_from (acc : list R) (m : list (list R)) : list (list R) :=
  match m with
  | [] => []
  | r :: m' => let acc' := vadd acc r in acc' :: cumsum_from acc' m'
  end.

(** [m.cumsum(axis=-2)] of one matrix. *)
Definition cumsum (m : list (list R)) : list (list R) :=
  match m with
  | [] => []
  | r :: m' => r :: cumsum_from r m'
  end.

(** Reading one entry: [t[b][h]], [t[b][h][q]], [t[b][h][q][j]]. *)
Definition at2 {A} (t : list (list A)) (b h : nat) : option A :=
  t !! b ≫= (.!! h).
Definition at3 {A} (t : list (list (list A))) (b h q : nat) : option A :=
  at2 t b h ≫= (.!! q).
Definition at4 {A} (t : list (list (list (list A)))) (b h q j : nat)
    : option A :=
  at3 t b h q ≫= (.!! j).

(** [np.ceil(np.log(L)).astype('int').item()] for a length [L >= 1]. *)
Definition ceil_log (L : nat) : nat := Z.to_nat (Zceil (ln (INR L))).

End Tensor.

Import Tensor.

(** ** src/utils/masking.py *)

Module Masking.

(** [TriangularCausalMask(B, L).mask], of shape [B, 1, L, L]. *)
Definition TriangularCausalMask (B L : nat) : list (list (list (list bool))) :=
  replicate B [triu1 L L].

(** [ProbMask(B, H, L, index, scores).mask]: the rows [index] of the
    triangular mask; the final reshape to [scores.shape] keeps the nesting. *)
Definition ProbMask (B H L : nat) (index : list (list (list nat)))
    (scores : list (list (list (list R))))
    : result (list (list (list (list bool)))) :=
  let _mask := triu1 L (dim3 scores) in
  let _mask_ex := replicate B (replicate H _mask) in
  indicator <- getitem_rows _mask_ex index ;;
  Ok indicator.

End Masking.

Import Masking.

(** ** src/models/attn.py *)

(** The constructor arguments shared by both attention layers. *)
Record config : Type := Config {
  mask_flag : bool;
  factor : nat;
  scale : option R;
  attention_dropout : R;
  output_attention : bool
}.

(** [self.scale or 1./sqrt(E)]: an absent or zero scale gives the default. *)
Definition scale_or (cfg : config) (E : nat) : R :=
  match scale cfg with
  | Some s => if Req_dec_T s 0 then 1 / sqrt (INR E) else s
  | None => 1 / sqrt (INR E)
  end.

Module FullAttention.

(** The weights [A] of [forward]: masked, scaled, softmaxed scores after
    dropout, of shape [B, H, L, S]. *)
Definition attention_weights (cfg : config) (st : dropout_state)
    (queries keys : list (list (list (list R))))
    (attn_mask : option (list (list (list (list bool)))))
    : list (list (list (list R))) :=
  let B := length queries in
  let L := dim1 queries in
  let H := dim2 queries in
  let E := dim3 queries in
  let scale := scale_or cfg E in
  let scores := einsum_blhe_bshe_bhls queries keys in
  let scores :=
    if mask_flag cfg then
      let attn_mask :=
        match attn_mask with
        | None => TriangularCausalMask B L
        | Some m => m
        end in
      zip_with (zip_with (zip_with where_neginf))
               (map (fun mb => concat (replicate H mb)) attn_mask) scores
    else map (map (map (map Fin))) scores in
  dropout (attention_dropout cfg) st
    (map (map (map (fun row => softmax (map (score_scale scale) row)))) scores).

Definition forward (cfg : config) (st : dropout_state)
    (queries keys values : list (list (list (list R))))
    (attn_mask : option (list (list (list (list bool)))))
    : list (list (list (list R))) * option (list (list (list (list R)))) :=
  let D := dim3 values in
  let A := attention_weights cfg st queries keys attn_mask in
  let V := einsum_bhls_bshd_blhd D A values in
  if output_attention cfg then (V, Some A) else (V, None).

End FullAttention.

Module ProbAttention.

(** The index tensor handed to [index_sample]: the one draw of shape
    [L_Q, sample_k], reshaped to [1, 1, L_Q, sample_k, 1] and tiled over
    batches, heads and features, which gives it rank 5. *)
Definition tiled_index (B H E : nat) (draw : list (list nat))
    : list (list (list (list (list nat)))) :=
  replicate B (replicate H (map (map (replicate E)) draw)).

(** [Q_K_sample] of [_prob_QK] (lines 56 to 61): every query against its
    sampled keys.  [K_expand] has rank 5 ([B, H, L_Q, L_K, E]), and so has
    the index tensor. *)
Definition sampled_scores (Q K : list (list (list (list R))))
    (g : rng) (sample_k : nat) : result (list (list (list (list R)))) :=
  let B := length K in
  let H := dim1 K in
  let L_K := dim2 K in
  let E := dim3 K in
  let L_Q := dim2 Q in
  let K_expand : tensor R 5 := map (map (replicate L_Q)) K in
  let index := randint g L_K L_Q sample_k in
  let index : tensor nat 5 := tiled_index B H E index in
  K_sample <- index_sample K_expand index ;;
  (* matmul(Q.unsqueeze(-2), K_sample.transpose(-2, -1)).squeeze(-2) *)
  Ok (zip_with (zip_with (zip_with (fun q ks => map (dot q) ks))) Q K_sample).

(** [M] of [_prob_QK] (line 64).  The backend's [max(-1)] returns the tensor
    of row maxima, so the [[0]] after it takes its first batch entry, of
    shape [H, L_Q], which the subtraction would broadcast over the batches
    of what [paddle.div] returns for the row sums and [L_K]. *)
Definition sparsity_measure (Q_K_sample : list (list (list (list R))))
    (L_K : nat) : result (list (list (list R))) :=
  mx <- mapM (mapM (mapM row_max)) Q_K_sample ;;
  mx0 <- getitem mx 0 ;;
  avg <- div (map (map (map Rsum)) Q_K_sample) L_K ;;
  Ok (map (fun avg_b => zip_with (zip_with Rminus) mx0 avg_b) avg).

Definition _prob_QK (Q K : list (list (list (list R))))
    (g : rng) (sample_k n_top : nat)
    : result (list (list (list (list R))) * list (list (list nat))) :=
  let L_K := dim2 K in
  Q_K_sample <- sampled_scores Q K g sample_k ;;
  M <- sparsity_measure Q_K_sample L_K ;;
  M_top <- mapM (mapM (fun row => topk_indices row n_top)) M ;;
  Q_reduce <- getitem_rows Q M_top ;;
  let Q_K := zip_with (zip_with matmul_T) Q_reduce K in
  Ok (Q_K, M_top).

Definition _get_initial_context (cfg : config)
    (V : list (list (list (list R)))) (L_Q : nat)
    : result (list (list (list (list R)))) :=
  let L_V := dim2 V in
  let D := dim3 V in
  if negb (mask_flag cfg) then
    let V_sum := map (map (mean_rows D)) V in
    Ok (map (map (replicate L_Q)) V_sum)
  else
    if decide (L_Q = L_V) then Ok (map (map cumsum) V)
    else Err AssertionError.

Definition _update_context (cfg : config)
    (context_in V scores : list (list (list (list R))))
    (index : list (list (list nat))) (L_Q : nat)
    (attn_mask : option (list (list (list (list bool)))))
    : result (list (list (list (list R))) *
              option (list (list (list (list R))))) :=
  let B := length V in
  let H := dim1 V in
  let L_V := dim2 V in
  let D := dim3 V in
  scores <-
    (if mask_flag cfg then
       attn_mask <- ProbMask B H L_Q index scores ;;
       Ok (zip_with (zip_with (zip_with where_neginf)) attn_mask scores)
     else Ok (map (map (map (map Fin))) scores)) ;;
  let attn := map (map (map softmax)) scores in
  let context_in :=
    setitem_rows context_in index (zip_with (zip_with (matmul D)) attn V) in
  if output_attention cfg then
    let attns :=
      replicate B (replicate H (replicate L_V (replicate L_V (1 / INR L_V)))) in
    let attns := setitem_rows attns index attn in
    Ok (context_in, Some attns)
  else Ok (context_in, None).

(** [U_part] and [u] of [forward], after clipping. *)
Definition clip (c L : nat) : nat :=
  let U := (c * ceil_log L)%nat in
  if decide (U < L)%nat then U else L.

Definition forward (cfg : config) (g : rng)
    (queries keys values : list (list (list (list R))))
    (attn_mask : option (list (list (list (list bool)))))
    : result (list (list (list (list R))) *
              option (list (list (list (list R))))) :=
  let L_Q := dim1 queries in
  let D := dim3 queries in
  let L_K := dim1 keys in
  let queries := swap12 queries in
  let keys := swap12 keys in
  let values := swap12 values in
  let U_part := clip (factor cfg) L_K in
  let u := clip (factor cfg) L_Q in
  '(scores_top, index) <- _prob_QK queries keys g U_part u ;;
  let scale := scale_or cfg D in
  let scores_top := map (map (map (map (fun x => x * scale)))) scores_top in
  context <- _get_initial_context cfg values L_Q ;;
  '(context, attn) <-
    _update_context cfg context values scores_top index L_Q attn_mask ;;
  Ok (swap12 context, attn).

End ProbAttention.

(** ** Concrete inputs *)

(** One batch, one head, one query and four keys of width 1; with factor 1
    the sample size is 2. *)
Definition ex_Q1 : list (list (list (list R))) := [[[[1]]]].
Definition ex_K4 : list (list (list (list R))) := [[[[1]; [2]; [3]; [4]]]].
Definition ex_rng : rng := fun q s => s.

(** The key indices sampled for batch [b], head [h] and query [q]: one row
    of [sample_k] indices, each repeated over the [E] features. *)
Definition samples_at (B H E L_K L_Q sample_k : nat) (g : rng) (b h q : nat)
    : option (list (list nat)) :=
  at3 (ProbAttention.tiled_index B H E (randint g L_K L_Q sample_k)) b h q.

(** A tensor of shape [B, H, L, D]. *)
Definition has_shape4 {A} (t : list (list (list (list A)))) (B H L D : nat)
    : Prop :=
  length t = B /\
  Forall (fun tb => length tb = H /\
    Forall (fun th => length th = L /\
      Forall (fun r : list A => length r = D) th) tb) t.

(** The sum of column [d] of a matrix: what the spec calls the sum of the
    values over the key axis, feature by feature. *)
Definition col_sum (m : list (list R)) (d : nat) : R :=
  Rsum (map (fun r => default 0 (r !! d)) m).

Definition ex_causal : config :=
  {| mask_flag := true; factor := 5; scale := None;
     attention_dropout := 0; output_attention := false |}.
Definition ex_plain : config :=
  {| mask_flag := false; factor := 5; scale := None;
     attention_dropout := 0; output_attention := false |}.

(** Values for one batch, one head, two keys of width 2 (head-major axes). *)
Definition ex_Vbh : list (list R) := [[1; 2]; [3; 4]].
Definition ex_V : list (list (list (list R))) := [[ex_Vbh]].

(** Sequence-major tensors ([B, L, H, E]) with one batch and one head:
    three queries, two keys and two values of width 1. *)
Definition ex_q3 : list (list (list (list R))) := [[[[1]]; [[1]]; [[1]]]].
Definition ex_k2 : list (list (list (list R))) := [[[[1]]; [[1]]]].

(** The two leading axes of a tensor have lengths [B] and [H]. *)
Definition grid {A} (t : list (list A)) (B H : nat) : Prop :=
  length t = B /\ Forall (fun tb => length tb = H) t.


(** Head-major tensors for one batch and one head: a context of two rows,
    two values of width 1, the scaled scores of one selected query against
    the two keys, and the Selection Index naming row 1. *)
Definition ex_ctx : list (list (list (list R))) := [[[[0]; [0]]]].
Definition ex_vals : list (list (list (list R))) := [[[[1]; [2]]]].
Definition ex_scores : list (list (list (list R))) := [[[[0; 0]]]].
Definition ex_index : list (list (list nat)) := [[[1%nat]]].

(** The keep decisions of a dropout layer in training mode cover the
    weights of shape [B, H, L, S]. *)
Definition dropout_covers (st : dropout_state) (B H L S : nat) : Prop :=
  match st with
  | Eval => True
  | Train keep => has_shape4 keep B H L S
  end.

(** Row [i] of the causal mask over [S] keys. *)
Definition causal_row (i S : nat) : list bool :=
  map (fun j => bool_decide (i < j)%nat) (seq 0 S).

(** Sequence-major self-attention inputs with one batch and one head: two
    positions of width 1. *)
Definition ex_q2 : list (list (list (list R))) := [[[[0]]; [[0]]]].
Definition ex_v1 : list (list (list (list R))) := [[[[1]]; [[1]]]].

(** The same layer configured with another dropout rate. *)
Definition with_dropout (cfg : config) (p : R) : config :=
  {| mask_flag := mask_flag cfg; factor := factor cfg; scale := scale cfg;
     attention_dropout := p; output_attention := output_attention cfg |}.

(** One query, one key and one value of width 1 (sequence-major). *)
Definition ex_q0 : list (list (list (list R))) := [[[[0]]]].
Definition ex_one : list (list (list (list R))) := [[[[1]]]].


(** The softmax row of the query at position [i] over its scaled scores,
    with the keys after [i] suppressed in the causal case. *)
Definition masked_softmax_row (causal : bool) (i : nat) (srow : list R)
    : list R :=
  softmax (if causal then where_neginf (causal_row i (length srow)) srow
           else map Fin srow).

(** ** The projection wrapper of src/models/attn.py *)

Module AttentionLayer.

(** [nn.Linear(in, out)]: a weight of shape [in, out] and a bias of [out]. *)
Record Linear : Type := {
  weight : list (list R);
  bias : list R
}.

(** The layer on one feature vector: [x @ weight + bias]. *)
Definition apply_linear (l : Linear) (x : list R) : list R :=
  vadd (lincomb (length (bias l)) x (weight l)) (bias l).

(** [k] consecutive pieces of [n] entries. *)
Fixpoint chunks {A} (k n : nat) (l : list A) : list (list A) :=
  match k with
  | 0%nat => []
  | S k' => take n l :: chunks k' n (drop n l)
  end.

(** [x.reshape([B, L, H, -1])] on the feature vector of one position: [H]
    heads of equal width; refused when the width is not a multiple of [H]. *)
Definition split_heads (H : nat) (x : list R) : result (list (list R)) :=
  if decide (H <> 0%nat /\ (length x mod H)%nat = 0%nat)
  then Ok (chunks H (length x / H) x)
  else Err ValueError.

(** [projection(x).reshape([B, L, H, -1])]. *)
Definition project_heads (l : Linear) (H : nat) (t : list (list (list R)))
    : result (list (list (list (list R)))) :=
  mapM (mapM (fun x => split_heads H (apply_linear l x))) t.

(** [out.reshape([B, L, -1])] on one batch entry: its entries in row-major
    order, cut into [L] rows of equal width. *)
Definition merge_rows (L : nat) (t : list (list (list R)))
    : result (list (list R)) :=
  let flat := concat (concat t) in
  if decide (L <> 0%nat /\ (length flat mod L)%nat = 0%nat)
  then Ok (chunks L (length flat / L) flat)
  else Err ValueError.

(** What the wrapper expects of its inner attention: dense or ProbSparse. *)
Definition attention : Type :=
  list (list (list (list R))) -> list (list (list (list R))) ->
  list (list (list (list R))) -> option (list (list (list (list bool)))) ->
  result (list (list (list (list R))) * option (list (list (list (list R))))).

Definition dense (cfg : config) (st : dropout_state) : attention :=
  fun q k v m => Ok (FullAttention.forward cfg st q k v m).

Definition prob (cfg : config) (g : rng) : attention :=
  ProbAttention.forward cfg g.

Record layer : Type := {
  inner_attention : attention;
  query_projection : Linear;
  key_projection : Linear;
  value_projection : Linear;
  out_projection : Linear;
  n_heads : nat;
  mix : bool
}.

Definition forward (a : layer) (queries keys values : list (list (list R)))
    (attn_mask : option (list (list (list (list bool)))))
    : result (list (list (list R)) * option (list (list (list (list R))))) :=
  let L := dim1 queries in
  let H := n_heads a in
  queries <- project_heads (query_projection a) H queries ;;
  keys <- project_heads (key_projection a) H keys ;;
  values <- project_heads (value_projection a) H values ;;
  '(out, attn) <- inner_attention a queries keys values attn_mask ;;
  let out := if mix a then swap12 out else out in
  out <- mapM (merge_rows L) out ;;
  Ok (map (map (apply_linear (out_projection a))) out, attn).

(** A linear layer as [nn.Linear(d_in, d_out)] builds it. *)
Definition linear_shape (l : Linear) (d_in d_out : nat) : Prop :=
  length (weight l) = d_in /\ length (bias l) = d_out /\
  Forall (fun r => length r = d_out) (weight l).

(** A tensor of shape [B, L, W]. *)
Definition has_shape3 {A} (t : list (list (list A))) (B L W : nat) : Prop :=
  grid t B L /\ Forall (Forall (fun x : list A => length x = W)) t.

End AttentionLayer.

(** A one-head wrapper over features of width 1, with dense and with
    ProbSparse attention inside, and an input of two positions. *)
Definition ex_linear : AttentionLayer.Linear :=
  {| AttentionLayer.weight := [[1]]; AttentionLayer.bias := [0] |}.
Definition ex_layer_dense : AttentionLayer.layer :=
  {| AttentionLayer.inner_attention := AttentionLayer.dense ex_plain Eval;
     AttentionLayer.query_projection := ex_linear;
     AttentionLayer.key_projection := ex_linear;
     AttentionLayer.value_projection := ex_linear;
     AttentionLayer.out_projection := ex_linear;
     AttentionLayer.n_heads := 1;
     AttentionLayer.mix := false |}.
Definition ex_layer_prob : AttentionLayer.layer :=
  {| AttentionLayer.inner_attention := AttentionLayer.prob ex_plain ex_rng;
     AttentionLayer.query_projection := ex_linear;
     AttentionLayer.key_projection := ex_linear;
     AttentionLayer.value_projection := ex_linear;
     AttentionLayer.out_projection := ex_linear;
     AttentionLayer.n_heads := 1;
     AttentionLayer.mix := true |}.
Definition ex_x2 : list (list (list R)) := [[[0]; [0]]].

(** * Properties *)

(** ** The error monad and the list traversals *)

Lemma bind_Ok {A B} (m : result A) (k : A -> result B) (b : B) :
  bind m k = Ok b <-> exists a, m = Ok a /\ k a = Ok b.
Proof.
  destruct m as [a|e]; simpl; split.
  - intros Hk. exists a. done.
  - intros (a' & Ha & Hk). congruence.
  - done.
  - intros (a' & Ha & _). done.
Qed.

Section Traversals.
Context {A B C : Type}.

Lemma mapM_Ok (f : A -> result B) (l : list A) (l' : list B) :
  mapM f l = Ok l' <-> Forall2 (fun x y => f x = Ok y) l l'.
Proof.
  revert l'. induction l as [|x l IH]; intros l'; simpl.
  - split.
    + intros [= <-]. constructor.
    + intros Hl. by inversion Hl.
  - rewrite bind_Ok. split.
    + intros (y & Hy & Hrest). apply bind_Ok in Hrest as (ys & Hys & [= <-]).
      constructor; [done|]. by apply IH.
    + intros Hl. inversion Hl as [|? y ? ys Hy Hys]; subst.
      exists y. split; [done|]. apply bind_Ok. exists ys.
      split; [by apply IH|done].
Qed.

Lemma mapM_total (f : A -> result B) (l : list A) :
  Forall (fun x => exists y, f x = Ok y) l -> exists l', mapM f l = Ok l'.
Proof.
  induction 1 as [|x l [y Hy] _ [ys Hys]]; simpl.
  - by exists [].
  - exists (y :: ys). by rewrite Hy, Hys.
Qed.

Lemma mapM2_Ok (f : A -> B -> result C) (l1 : list A) (l2 : list B)
    (l' : list C) :
  mapM2 f l1 l2 = Ok l' <->
  Forall2 (fun xy z => f xy.1 xy.2 = Ok z) (zip l1 l2) l'.
Proof.
  revert l2 l'. induction l1 as [|x l1 IH]; intros [|y l2] l'; simpl;
    try (split; [intros [= <-]; constructor | intros Hl; by inversion Hl]).
  rewrite bind_Ok. split.
  - intros (z & Hz & Hrest). apply bind_Ok in Hrest as (zs & Hzs & [= <-]).
    constructor; [done|]. by apply IH.
  - intros Hl. inversion Hl as [|? z ? zs Hz Hzs]; subst.
    exists z. split; [done|]. apply bind_Ok. exists zs.
    split; [by apply IH|done].
Qed.

Lemma mapM2_total (f : A -> B -> result C) (l1 : list A) (l2 : list B) :
  Forall (fun xy => exists z, f xy.1 xy.2 = Ok z) (zip l1 l2) ->
  exists l', mapM2 f l1 l2 = Ok l'.
Proof.
  revert l2. induction l1 as [|x l1 IH]; intros [|y l2] Hall; simpl;
    try by exists [].
  inversion Hall as [|? ? [z Hz] Hrest]; subst. simpl in Hz.
  destruct (IH l2 Hrest) as [zs Hzs].
  exists (z :: zs). by rewrite Hz, Hzs.
Qed.

End Traversals.

(** Lookups through traversals. *)

Lemma mapM_lookup {A B} (f : A -> result B) l l' i y :
  mapM f l = Ok l' -> l' !! i = Some y ->
  exists x, l !! i = Some x /\ f x = Ok y.
Proof.
  intros Hm Hy. apply mapM_Ok in Hm.
  destruct (Forall2_lookup_r _ _ _ _ _ Hm Hy) as (x & Hx & Hf). eauto.
Qed.

Lemma mapM_lookup_l {A B} (f : A -> result B) l l' i x :
  mapM f l = Ok l' -> l !! i = Some x ->
  exists y, l' !! i = Some y /\ f x = Ok y.
Proof.
  intros Hm Hx. apply mapM_Ok in Hm.
  destruct (Forall2_lookup_l _ _ _ _ _ Hm Hx) as (y & Hy & Hf). eauto.
Qed.

Lemma mapM_length {A B} (f : A -> result B) l l' :
  mapM f l = Ok l' -> length l' = length l.
Proof. intros Hm. apply mapM_Ok in Hm. symmetry. by eapply Forall2_length. Qed.

Lemma mapM2_lookup {A B C} (f : A -> B -> result C) l1 l2 l' i z :
  mapM2 f l1 l2 = Ok l' -> l' !! i = Some z ->
  exists x y, l1 !! i = Some x /\ l2 !! i = Some y /\ f x y = Ok z.
Proof.
  intros Hm Hz. apply mapM2_Ok in Hm.
  destruct (Forall2_lookup_r _ _ _ _ _ Hm Hz) as ([x y] & Hxy & Hf).
  apply lookup_zip_with_Some in Hxy as (x' & y' & [= <- <-] & Hx & Hy). eauto.
Qed.

Lemma mapM2_lookup_l {A B C} (f : A -> B -> result C) l1 l2 l' i x y :
  mapM2 f l1 l2 = Ok l' -> l1 !! i = Some x -> l2 !! i = Some y ->
  exists z, l' !! i = Some z /\ f x y = Ok z.
Proof.
  intros Hm Hx Hy. apply mapM2_Ok in Hm.
  assert (zip l1 l2 !! i = Some (x, y)) as Hxy.
  { apply lookup_zip_with_Some. eauto. }
  destruct (Forall2_lookup_l _ _ _ _ _ Hm Hxy) as (z & Hz & Hf). eauto.
Qed.

Lemma mapM2_length {A B C} (f : A -> B -> result C) l1 l2 l' :
  mapM2 f l1 l2 = Ok l' -> length l' = Nat.min (length l1) (length l2).
Proof.
  intros Hm. apply mapM2_Ok in Hm. apply Forall2_length in Hm.
  rewrite <- Hm. apply length_zip_with.
Qed.


Lemma at2_Some {A} (t : list (list A)) b h x :
  at2 t b h = Some x <-> exists tb, t !! b = Some tb /\ tb !! h = Some x.
Proof.
  unfold at2. destruct (t !! b) as [tb|]; simpl; split.
  - eauto.
  - by intros (? & [= <-] & ?).
  - done.
  - by intros (? & ? & ?).
Qed.

Lemma at3_Some {A} (t : list (list (list A))) b h q x :
  at3 t b h q = Some x <->
  exists tb th, t !! b = Some tb /\ tb !! h = Some th /\ th !! q = Some x.
Proof.
  unfold at3. destruct (at2 t b h) as [th|] eqn:Hth; simpl; split.
  - apply at2_Some in Hth as (tb & ? & ?). eauto 6.
  - intros (tb & th' & Hb & Hh & Hq).
    assert (at2 t b h = Some th') as Heq by (apply at2_Some; eauto).
    congruence.
  - done.
  - intros (tb & th' & Hb & Hh & Hq).
    assert (at2 t b h = Some th') as Heq by (apply at2_Some; eauto).
    congruence.
Qed.

Lemma at4_Some {A} (t : list (list (list (list A)))) b h q j x :
  at4 t b h q j = Some x <->
  exists row, at3 t b h q = Some row /\ row !! j = Some x.
Proof.
  unfold at4. destruct (at3 t b h q) as [row|]; simpl; split.
  - eauto.
  - by intros (? & [= <-] & ?).
  - done.
  - by intros (? & ? & ?).
Qed.

(** ** Logarithms of small lengths *)

Lemma ceil_log_eq (L : nat) (z : nat) :
  exp (INR z - 1) < INR L <= exp (INR z) -> ceil_log L = z.
Proof.
  intros [Hlo Hhi]. unfold ceil_log.
  assert (0 < INR L) as HL by (pose proof (exp_pos (INR z - 1)); lra).
  rewrite (Zceil_eq (Z.of_nat z)); [apply Nat2Z.id|].
  rewrite <- INR_IZR_INZ. split.
  - rewrite <- (ln_exp (INR z - 1)). apply ln_increasing; [apply exp_pos|done].
  - rewrite <- (ln_exp (INR z)).
    destruct Hhi as [Hhi| ->]; [|lra].
    left. by apply ln_increasing.
Qed.

Lemma exp_1_gt_2 : 2 < exp 1.
Proof. pose proof (exp_ineq1 1). lra. Qed.

Lemma ceil_log_2 : ceil_log 2 = 1%nat.
Proof.
  apply ceil_log_eq. simpl. replace (1 - 1) with 0 by lra. rewrite exp_0.
  pose proof exp_1_gt_2. lra.
Qed.

(** ** Sampling *)

Lemma randint_lookup g high n k q :
  (q < n)%nat ->
  randint g high n k !! q = Some (map (fun s => (g q s mod high)%nat) (seq 0 k)).
Proof.
  intros Hq. unfold randint. rewrite list_lookup_fmap.
  rewrite lookup_seq_lt by done. reflexivity.
Qed.

Lemma randint_bounded g high n k :
  (0 < high)%nat ->
  Forall (Forall (fun i => (i < high)%nat)) (randint g high n k).
Proof.
  intros Hhigh. unfold randint.
  apply Forall_fmap, Forall_forall. intros q _. simpl.
  apply Forall_fmap, Forall_forall. intros s _. simpl.
  apply Nat.mod_upper_bound. lia.
Qed.

(** C2 (amended): one row of [sample_k] key indices is drawn per query
    position, each index in [0, L_K), and that row is the one used at every
    batch and every head; only distinct query positions have their own
    draws. *)
Theorem C2_samples_shared_over_batch_and_head
    B H E L_K L_Q sample_k (g : rng) b h q :
  (b < B)%nat -> (h < H)%nat -> (q < L_Q)%nat -> (0 < L_K)%nat ->
  samples_at B H E L_K L_Q sample_k g b h q
  = Some (map (fun s => replicate E (g q s mod L_K)%nat) (seq 0 sample_k))
  /\ Forall (fun s => (g q s mod L_K < L_K)%nat) (seq 0 sample_k).
Proof.
  intros Hb Hh Hq HL. split.
  - unfold samples_at, ProbAttention.tiled_index. apply at3_Some.
    eexists _, _. split; [by apply lookup_replicate_2|].
    split; [by apply lookup_replicate_2|].
    rewrite list_lookup_fmap, randint_lookup by done. simpl.
    by rewrite <- list_fmap_compose.
  - apply Forall_forall. intros s _. apply Nat.mod_upper_bound. lia.
Qed.

Lemma C2_samples_witness :
  samples_at 2 2 1 4 1 2 ex_rng 1 1 0 = Some [[0%nat]; [1%nat]]
  /\ Forall (fun s => (ex_rng 0 s mod 4 < 4)%nat) (seq 0 2).
Proof.
  apply (C2_samples_shared_over_batch_and_head 2 2 1 4 1 2 ex_rng 1 1 0); lia.
Defined.

(** C2 as stated fails: with two batches and two heads, no draw gives the
    query of batch 0, head 0 other sampled keys than the query of batch 1,
    head 1. *)
Lemma C2_counterexample :
  ~ exists g : rng,
      samples_at 2 2 1 4 1 2 g 0 0 0 <> samples_at 2 2 1 4 1 2 g 1 1 0.
Proof. intros [g Hg]. apply Hg. reflexivity. Qed.

(** Distinct query positions do have their own draws. *)
Lemma samples_differ_between_queries :
  exists g : rng,
    samples_at 1 1 1 4 2 1 g 0 0 0 <> samples_at 1 1 1 4 2 1 g 0 0 1.
Proof. exists (fun q s => q). discriminate. Qed.

(** ** Shapes *)

Lemma has_shape4_lookup {A} (t : list (list (list (list A)))) B H L D b h th :
  has_shape4 t B H L D -> at2 t b h = Some th ->
  (b < B)%nat /\ (h < H)%nat /\ length th = L /\
  Forall (fun r => length r = D) th.
Proof.
  intros [HB Hall] Hth. apply at2_Some in Hth as (tb & Hb & Hh).
  pose proof (Forall_lookup_1 _ _ _ _ Hall Hb) as [HH Hallb].
  pose proof (Forall_lookup_1 _ _ _ _ Hallb Hh) as [HL Hallh].
  apply lookup_lt_Some in Hb, Hh. repeat split; [lia|lia|done|done].
Qed.

Lemma has_shape4_dims {A} (t : list (list (list (list A)))) B H L D :
  has_shape4 t B H L D -> (0 < B)%nat -> (0 < H)%nat -> (0 < L)%nat ->
  dim1 t = H /\ dim2 t = L /\ dim3 t = D.
Proof.
  intros [HB Hall] HB0 HH0 HL0. unfold dim3, dim2, dim1.
  destruct t as [|tb t]; [simpl in HB; lia|]. simpl.
  apply Forall_cons in Hall as [[HH Hallb] _].
  destruct tb as [|th tb]; [simpl in HH; lia|]. simpl.
  apply Forall_cons in Hallb as [[HL Hallh] _].
  destruct th as [|r th]; [simpl in HL; lia|]. simpl.
  apply Forall_cons in Hallh as [HD _]. done.
Qed.

(** ** Context initialisation *)

Lemma col_sum_cons r m d :
  col_sum (r :: m) d = default 0 (r !! d) + col_sum m d.
Proof. reflexivity. Qed.

Lemma lookup_map_seq {A} (f : nat -> A) n i :
  (i < n)%nat -> map f (seq 0 n) !! i = Some (f i).
Proof.
  intros Hi. change (map f (seq 0 n)) with (f <$> seq 0 n).
  rewrite list_lookup_fmap, lookup_seq_lt by done. reflexivity.
Qed.

Lemma map_seq_eq {A} (l : list A) (f : nat -> A) n :
  length l = n -> (forall i x, l !! i = Some x -> x = f i) ->
  l = map f (seq 0 n).
Proof.
  intros Hlen Hl. apply list_eq. intros i.
  destruct (decide (i < n)%nat) as [Hi|Hi].
  - rewrite lookup_map_seq by done.
    destruct (lookup_lt_is_Some_2 l i) as [x Hx]; [lia|].
    rewrite Hx. f_equal. by apply Hl.
  - rewrite !lookup_ge_None_2; [done| |lia].
    rewrite length_map, length_seq. lia.
Qed.

Lemma vadd_lookup u v d x y :
  u !! d = Some x -> v !! d = Some y -> vadd u v !! d = Some (x + y).
Proof.
  intros Hu Hv. unfold vadd. apply lookup_zip_with_Some. eauto.
Qed.

Lemma vadd_length u v D :
  length u = D -> length v = D -> length (vadd u v) = D.
Proof. intros Hu Hv. unfold vadd. rewrite length_zip_with. lia. Qed.

Lemma fold_vadd_col_sum D m :
  Forall (fun r => length r = D) m ->
  foldr vadd (replicate D 0) m = map (col_sum m) (seq 0 D).
Proof.
  induction 1 as [|r m Hr Hm IH]; simpl.
  - apply map_seq_eq; [apply length_replicate|].
    intros i x Hx. apply lookup_replicate in Hx as [-> _]. reflexivity.
  - rewrite IH. apply map_seq_eq.
    + apply vadd_length; [done|]. by rewrite length_map, length_seq.
    + intros i x Hx. unfold vadd in Hx.
      apply lookup_zip_with_Some in Hx as (a & c & -> & Ha & Hc).
      rewrite col_sum_cons, Ha. simpl.
      assert (i < D)%nat as Hi by (apply lookup_lt_Some in Ha; lia).
      rewrite lookup_map_seq in Hc by done. congruence.
Qed.

Lemma mean_rows_spec D m :
  Forall (fun r => length r = D) m ->
  mean_rows D m = map (fun d => col_sum m d / INR (length m)) (seq 0 D).
Proof.
  intros Hm. unfold mean_rows. rewrite fold_vadd_col_sum by done.
  by rewrite map_map.
Qed.

Lemma cumsum_from_lookup D acc m i :
  length acc = D -> Forall (fun r => length r = D) m -> (i < length m)%nat ->
  cumsum_from acc m !! i
  = Some (map (fun d => default 0 (acc !! d) + col_sum (take (S i) m) d)
              (seq 0 D)).
Proof.
  intros Hacc Hm. revert acc i Hacc.
  induction Hm as [|r m Hr Hm IH]; intros acc i Hacc Hi; simpl in *; [lia|].
  destruct i as [|i]; simpl.
  - f_equal. apply map_seq_eq; [by apply vadd_length|].
    intros d x Hx. unfold vadd in Hx.
    apply lookup_zip_with_Some in Hx as (a & c & -> & Ha & Hc).
    rewrite Ha, col_sum_cons, Hc. simpl. unfold col_sum, Rsum. simpl. lra.
  - rewrite IH; [|by apply vadd_length|lia]. f_equal.
    apply map_ext_in. intros d Hd. apply in_seq in Hd.
    destruct (lookup_lt_is_Some_2 acc d) as [a Ha]; [lia|].
    destruct (lookup_lt_is_Some_2 r d) as [c Hc]; [lia|].
    rewrite (vadd_lookup _ _ _ _ _ Ha Hc), Ha.
    rewrite (col_sum_cons r), Hc. simpl. lra.
Qed.

Lemma cumsum_lookup D m i :
  Forall (fun r => length r = D) m -> (i < length m)%nat ->
  cumsum m !! i = Some (map (col_sum (take (S i) m)) (seq 0 D)).
Proof.
  intros Hm Hi. destruct m as [|r m]; simpl in *; [lia|].
  apply Forall_cons in Hm as [Hr Hm].
  destruct i as [|i]; simpl.
  - f_equal. apply map_seq_eq; [done|].
    intros d x Hx. rewrite col_sum_cons, Hx. simpl.
    unfold col_sum, Rsum. simpl. lra.
  - rewrite (cumsum_from_lookup D) by (done || lia). reflexivity.
Qed.

(** ** Axis exchange *)

Lemma column_spec {A} (m : list (list A)) (n j : nat) :
  Forall (fun r => length r = n) m -> (j < n)%nat ->
  length (omap (fun row => row !! j) m) = length m /\
  forall i r, m !! i = Some r -> omap (fun row => row !! j) m !! i = r !! j.
Proof.
  intros Hm Hj. induction Hm as [|r m Hr Hm [IHlen IH]]; simpl.
  - split; [done|]. intros i r Hr. by rewrite lookup_nil in Hr.
  - destruct (lookup_lt_is_Some_2 r j) as [x Hx]; [lia|]. rewrite Hx.
    simpl. split; [by f_equal|].
    intros [|i] r' Hr'; simpl in *; [congruence|]. by apply IH.
Qed.


Lemma transpose_length {A} (m : list (list A)) (n : nat) :
  length (transpose n m) = n.
Proof. unfold transpose. by rewrite length_map, length_seq. Qed.

Lemma transpose_columns {A} (m : list (list A)) (n : nat) :
  Forall (fun r => length r = n) m ->
  Forall (fun c => length c = length m) (transpose n m).
Proof.
  intros Hm. unfold transpose. apply Forall_fmap, Forall_forall.
  intros j Hj. apply elem_of_seq in Hj. simpl. apply column_spec with n; [done|lia].
Qed.

Lemma column_elem_of {A} (m : list (list A)) (j : nat) x :
  x ∈ omap (fun row => row !! j) m -> exists r, r ∈ m /\ r !! j = Some x.
Proof. intros Hx. apply list_elem_of_omap in Hx. done. Qed.

Lemma swap12_shape {A} (t : list (list (list (list A)))) B L H D :
  has_shape4 t B L H D -> (0 < B)%nat -> (0 < L)%nat ->
  has_shape4 (swap12 t) B H L D.
Proof.
  intros [HB Hall] HB0 HL0.
  assert (dim2 t = H) as Hdim.
  { unfold dim2, dim1. destruct t as [|tb t]; [simpl in HB; lia|]. simpl.
    apply Forall_cons in Hall as [[HLb Hallb] _].
    destruct tb as [|th tb]; [simpl in HLb; lia|]. simpl.
    by apply Forall_cons in Hallb as [[HH _] _]. }
  unfold swap12. rewrite Hdim. split; [by rewrite length_map|].
  apply Forall_fmap. eapply Forall_impl; [exact Hall|].
  intros tb [HLb Hallb]. simpl.
  assert (Forall (fun r => length r = H) tb) as Hrows.
  { eapply Forall_impl; [exact Hallb|]. by intros th [? _]. }
  split; [apply transpose_length|].
  apply Forall_forall. intros c Hc.
  pose proof (transpose_columns tb H Hrows) as Hcols.
  rewrite Forall_forall in Hcols. split; [rewrite (Hcols c Hc); done|].
  unfold transpose in Hc. apply list_elem_of_fmap in Hc as (j & -> & Hj).
  apply Forall_forall. intros x Hx.
  apply column_elem_of in Hx as (r & Hr & Hrx).
  rewrite Forall_forall in Hallb. destruct (Hallb r Hr) as [_ Hr'].
  by apply (Forall_lookup_1 _ _ _ _ Hr' Hrx).
Qed.

(** C3: without the causal flag every row of the initial context is the
    mean of the values over the key axis, the same for all [L_Q] rows; with
    the causal flag (where [L_Q] is the number of keys) row [i] is the sum of
    the values at the key positions [0..i]. *)
Theorem C3_initial_context cfg V B H L_V D L_Q b h i Vbh :
  has_shape4 V B H L_V D -> (0 < L_V)%nat ->
  at2 V b h = Some Vbh -> (i < L_Q)%nat ->
  (mask_flag cfg = true -> L_Q = L_V) ->
  exists ctx,
    ProbAttention._get_initial_context cfg V L_Q = Ok ctx /\
    at3 ctx b h i
    = Some (if mask_flag cfg
            then map (col_sum (take (S i) Vbh)) (seq 0 D)
            else map (fun d => col_sum Vbh d / INR L_V) (seq 0 D)).
Proof.
  intros HV HL HVbh Hi Hcausal.
  destruct (has_shape4_lookup _ _ _ _ _ _ _ _ HV HVbh) as (Hb & Hh & Hlen & Hrows).
  destruct (has_shape4_dims _ _ _ _ _ HV) as (_ & Hd2 & Hd3); [lia..|].
  apply at2_Some in HVbh as (Vb & HVb & HVbh).
  unfold ProbAttention._get_initial_context. rewrite Hd2, Hd3.
  destruct (mask_flag cfg); simpl.
  - specialize (Hcausal eq_refl). subst L_Q.
    rewrite decide_True by done. eexists. split; [done|].
    apply at3_Some. eexists _, _. split; [|split].
    + by rewrite list_lookup_fmap, HVb.
    + by rewrite list_lookup_fmap, HVbh.
    + apply cumsum_lookup; [done|lia].
  - eexists. split; [done|].
    apply at3_Some. eexists _, _. split; [|split].
    + by rewrite !list_lookup_fmap, HVb.
    + by rewrite !list_lookup_fmap, HVbh.
    + simpl. rewrite mean_rows_spec, Hlen by done.
      by apply lookup_replicate_2.
Qed.

Lemma C3_initial_context_witness :
  (exists ctx,
     ProbAttention._get_initial_context ex_causal ex_V 2 = Ok ctx /\
     at3 ctx 0 0 1 = Some (map (col_sum (take 2 ex_Vbh)) (seq 0 2)))
  /\
  (exists ctx,
     ProbAttention._get_initial_context ex_plain ex_V 3 = Ok ctx /\
     at3 ctx 0 0 2 = Some (map (fun d => col_sum ex_Vbh d / INR 2) (seq 0 2))).
Proof.
  split.
  - apply (C3_initial_context ex_causal ex_V 1 1 2 2 2 0 0 1 ex_Vbh);
      [repeat constructor | lia | reflexivity | lia | reflexivity].
  - apply (C3_initial_context ex_plain ex_V 1 1 2 2 3 0 0 2 ex_Vbh);
      [repeat constructor | lia | reflexivity | lia | discriminate].
Defined.

(** ** Reasoning per batch and head *)

Lemma mapM_total_lookup {A B} (f : A -> result B) l :
  (forall i x, l !! i = Some x -> exists y, f x = Ok y) ->
  exists l', mapM f l = Ok l'.
Proof. intros Hf. apply mapM_total, Forall_lookup_2. exact Hf. Qed.

Lemma mapM2_total_lookup {A B C} (f : A -> B -> result C) l1 l2 :
  (forall i x y, l1 !! i = Some x -> l2 !! i = Some y -> exists z, f x y = Ok z) ->
  exists l', mapM2 f l1 l2 = Ok l'.
Proof.
  intros Hf. apply mapM2_total, Forall_lookup_2. intros i [x y] Hxy.
  apply lookup_zip_with_Some in Hxy as (x' & y' & [= <- <-] & Hx & Hy).
  simpl. eauto.
Qed.

Lemma grid_at2 {A} (t : list (list A)) B H b h :
  grid t B H -> (b < B)%nat -> (h < H)%nat -> exists x, at2 t b h = Some x.
Proof.
  intros [HB Hall] Hb Hh.
  destruct (lookup_lt_is_Some_2 t b) as [tb Htb]; [lia|].
  pose proof (Forall_lookup_1 _ _ _ _ Hall Htb) as Hlen.
  destruct (lookup_lt_is_Some_2 tb h) as [x Hx]; [simpl in Hlen; lia|].
  exists x. apply at2_Some. eauto.
Qed.

Lemma at2_lt {A} (t : list (list A)) B H b h x :
  grid t B H -> at2 t b h = Some x -> (b < B)%nat /\ (h < H)%nat.
Proof.
  intros [HB Hall] Hx. apply at2_Some in Hx as (tb & Htb & Hx).
  pose proof (Forall_lookup_1 _ _ _ _ Hall Htb) as Hlen. simpl in Hlen.
  apply lookup_lt_Some in Htb, Hx. lia.
Qed.

Lemma has_shape4_grid {A} (t : list (list (list (list A)))) B H L D :
  has_shape4 t B H L D <->
  grid t B H /\
  forall b h th, at2 t b h = Some th ->
    length th = L /\ Forall (fun r => length r = D) th.
Proof.
  split.
  - intros Ht. split.
    + destruct Ht as [HB Hall]. split; [done|].
      eapply Forall_impl; [exact Hall|]. by intros tb [? _].
    + intros b h th Hth.
      by destruct (has_shape4_lookup _ _ _ _ _ _ _ _ Ht Hth) as (_ & _ & ? & ?).
  - intros [[HB Hall] Hsl]. split; [done|].
    apply Forall_lookup_2. intros b tb Htb.
    split; [exact (Forall_lookup_1 _ _ _ _ Hall Htb)|].
    apply Forall_lookup_2. intros h th Hth.
    apply (Hsl b h). apply at2_Some. eauto.
Qed.

Lemma at2_map {A B} (f : A -> B) (t : list (list A)) b h :
  at2 (map (map f) t) b h = f <$> at2 t b h.
Proof.
  unfold at2. change (map (map f) t) with (map f <$> t).
  rewrite list_lookup_fmap. destruct (t !! b) as [tb|]; simpl; [|done].
  change (map f tb) with (f <$> tb). by rewrite list_lookup_fmap.
Qed.

Lemma grid_map {A B} (f : A -> B) (t : list (list A)) B' H :
  grid t B' H -> grid (map (map f) t) B' H.
Proof.
  intros [HB Hall]. split; [by rewrite length_map|].
  apply Forall_fmap. eapply Forall_impl; [exact Hall|].
  intros tb Hlen. simpl. by rewrite length_map.
Qed.

Lemma at2_zip_with {A B C} (f : A -> B -> C) t1 t2 b h :
  at2 (zip_with (zip_with f) t1 t2) b h
  = x ← at2 t1 b h; y ← at2 t2 b h; Some (f x y).
Proof.
  unfold at2. rewrite lookup_zip_with.
  destruct (t1 !! b) as [tb1|]; simpl; [|done].
  destruct (t2 !! b) as [tb2|]; simpl.
  - by rewrite lookup_zip_with.
  - by destruct (tb1 !! h).
Qed.

Lemma grid_zip_with {A B C} (f : A -> B -> C) t1 t2 B' H :
  grid t1 B' H -> grid t2 B' H -> grid (zip_with (zip_with f) t1 t2) B' H.
Proof.
  intros [HB1 Hall1] [HB2 Hall2]. split; [rewrite length_zip_with; lia|].
  apply Forall_lookup_2. intros b tb Htb.
  apply lookup_zip_with_Some in Htb as (tb1 & tb2 & -> & Htb1 & Htb2).
  pose proof (Forall_lookup_1 _ _ _ _ Hall1 Htb1) as H1.
  pose proof (Forall_lookup_1 _ _ _ _ Hall2 Htb2) as H2.
  simpl in *. rewrite length_zip_with. lia.
Qed.

Lemma at2_replicate {A} (x : A) B H b h :
  (b < B)%nat -> (h < H)%nat -> at2 (replicate B (replicate H x)) b h = Some x.
Proof.
  intros Hb Hh. apply at2_Some. exists (replicate H x).
  split; by apply lookup_replicate_2.
Qed.

Lemma grid_replicate {A} (x : A) B H : grid (replicate B (replicate H x)) B H.
Proof.
  split; [apply length_replicate|].
  apply Forall_replicate. apply length_replicate.
Qed.

Lemma mapM2_at2 {A B C} (f : A -> B -> result C) t1 t2 t' b h x y :
  mapM2 (mapM2 f) t1 t2 = Ok t' ->
  at2 t1 b h = Some x -> at2 t2 b h = Some y ->
  exists z, at2 t' b h = Some z /\ f x y = Ok z.
Proof.
  intros Hm Hx Hy.
  apply at2_Some in Hx as (tb1 & Htb1 & Hx).
  apply at2_Some in Hy as (tb2 & Htb2 & Hy).
  destruct (mapM2_lookup_l _ _ _ _ _ _ _ Hm Htb1 Htb2) as (tb' & Htb' & Hmb).
  destruct (mapM2_lookup_l _ _ _ _ _ _ _ Hmb Hx Hy) as (z & Hz & Hf).
  exists z. split; [|done]. apply at2_Some. eauto.
Qed.

Lemma mapM2_at2_r {A B C} (f : A -> B -> result C) t1 t2 t' b h z :
  mapM2 (mapM2 f) t1 t2 = Ok t' -> at2 t' b h = Some z ->
  exists x y, at2 t1 b h = Some x /\ at2 t2 b h = Some y /\ f x y = Ok z.
Proof.
  intros Hm Hz. apply at2_Some in Hz as (tb' & Htb' & Hz).
  destruct (mapM2_lookup _ _ _ _ _ _ Hm Htb') as (tb1 & tb2 & Htb1 & Htb2 & Hmb).
  destruct (mapM2_lookup _ _ _ _ _ _ Hmb Hz) as (x & y & Hx & Hy & Hf).
  exists x, y. split; [|split; [|done]]; apply at2_Some; eauto.
Qed.

Lemma mapM2_grid {A B C} (f : A -> B -> result C) t1 t2 t' B' H :
  grid t1 B' H -> grid t2 B' H -> mapM2 (mapM2 f) t1 t2 = Ok t' ->
  grid t' B' H.
Proof.
  intros [HB1 Hall1] [HB2 Hall2] Hm. split.
  - rewrite (mapM2_length _ _ _ _ Hm). lia.
  - apply Forall_lookup_2. intros b tb' Htb'.
    destruct (mapM2_lookup _ _ _ _ _ _ Hm Htb') as (tb1 & tb2 & Htb1 & Htb2 & Hmb).
    pose proof (Forall_lookup_1 _ _ _ _ Hall1 Htb1) as H1.
    pose proof (Forall_lookup_1 _ _ _ _ Hall2 Htb2) as H2.
    simpl in *. rewrite (mapM2_length _ _ _ _ Hmb). lia.
Qed.

Lemma mapM2_at2_total {A B C} (f : A -> B -> result C) t1 t2 :
  (forall b h x y, at2 t1 b h = Some x -> at2 t2 b h = Some y ->
                   exists z, f x y = Ok z) ->
  exists t', mapM2 (mapM2 f) t1 t2 = Ok t'.
Proof.
  intros Hf. apply mapM2_total_lookup. intros b tb1 tb2 Htb1 Htb2.
  apply mapM2_total_lookup. intros h x y Hx Hy.
  apply (Hf b h); apply at2_Some; eauto.
Qed.

Lemma mapM_at2 {A B} (f : A -> result B) t t' b h x :
  mapM (mapM f) t = Ok t' -> at2 t b h = Some x ->
  exists z, at2 t' b h = Some z /\ f x = Ok z.
Proof.
  intros Hm Hx. apply at2_Some in Hx as (tb & Htb & Hx).
  destruct (mapM_lookup_l _ _ _ _ _ Hm Htb) as (tb' & Htb' & Hmb).
  destruct (mapM_lookup_l _ _ _ _ _ Hmb Hx) as (z & Hz & Hf).
  exists z. split; [|done]. apply at2_Some. eauto.
Qed.

Lemma mapM_grid {A B} (f : A -> result B) t t' B' H :
  grid t B' H -> mapM (mapM f) t = Ok t' -> grid t' B' H.
Proof.
  intros [HB Hall] Hm. split.
  - by rewrite (mapM_length _ _ _ Hm).
  - apply Forall_lookup_2. intros b tb' Htb'.
    destruct (mapM_lookup _ _ _ _ _ Hm Htb') as (tb & Htb & Hmb).
    pose proof (Forall_lookup_1 _ _ _ _ Hall Htb) as H1.
    simpl in *. by rewrite (mapM_length _ _ _ Hmb).
Qed.

Lemma mapM_at2_total {A B} (f : A -> result B) t :
  (forall b h x, at2 t b h = Some x -> exists z, f x = Ok z) ->
  exists t', mapM (mapM f) t = Ok t'.
Proof.
  intros Hf. apply mapM_total_lookup. intros b tb Htb.
  apply mapM_total_lookup. intros h x Hx.
  apply (Hf b h). apply at2_Some. eauto.
Qed.

(** ** Selection sizes *)

Lemma ceil_log_bound (L : nat) :
  (1 <= L)%nat -> INR (ceil_log L) - 1 < ln (INR L) <= INR (ceil_log L).
Proof.
  intros HL. unfold ceil_log.
  assert (0 <= ln (INR L)) as Hln.
  { rewrite <- ln_1. destruct (decide (L = 1%nat)) as [->|Hne]; [simpl; lra|].
    left. apply ln_increasing; [lra|]. apply (lt_INR 1). lia. }
  pose proof (Zceil_bound (ln (INR L))) as Hb.
  assert (0 <= Zceil (ln (INR L)))%Z as Hz.
  { apply le_IZR. lra. }
  rewrite INR_IZR_INZ, Z2Nat.id by done. exact Hb.
Qed.

Lemma clip_min c L : ProbAttention.clip c L = Nat.min (c * ceil_log L) L.
Proof. unfold ProbAttention.clip. case_decide; lia. Qed.

(** ** Row assignment *)

Lemma set_rows_length {A} (rows : list A) idx vals :
  length (set_rows rows idx vals) = length rows.
Proof.
  revert rows vals. induction idx as [|i idx IH]; intros rows [|v vals];
    simpl; try done.
  rewrite IH. apply length_insert.
Qed.

(** Rows that are not named by the index keep their content. *)
Lemma set_rows_frame {A} (rows : list A) idx vals q :
  q ∉ idx -> set_rows rows idx vals !! q = rows !! q.
Proof.
  revert rows vals. induction idx as [|i idx IH]; intros rows [|v vals] Hq;
    simpl; try done.
  apply not_elem_of_cons in Hq as [Hne Hq].
  rewrite (IH _ _ Hq). by apply list_lookup_insert_ne.
Qed.

(** A row of the matrix named once by the index receives the value at the
    same place. *)
Lemma set_rows_written {A} (rows : list A) idx vals k q v :
  NoDup idx -> idx !! k = Some q -> vals !! k = Some v ->
  (q < length rows)%nat -> set_rows rows idx vals !! q = Some v.
Proof.
  revert rows vals k. induction idx as [|i idx IH];
    intros rows [|v' vals] k Hnd Hq Hv Hlt; simpl; try done.
  apply NoDup_cons in Hnd as [Hni Hnd].
  destruct k as [|k]; simpl in Hq, Hv.
  - injection Hq as ->. injection Hv as ->.
    rewrite (set_rows_frame _ _ _ _ Hni).
    by apply list_lookup_insert_eq.
  - apply (IH _ _ k Hnd Hq Hv). by rewrite length_insert.
Qed.

Lemma setitem_rows_at2 {A} (t : list (list (list A))) index vals b h th idx v :
  at2 t b h = Some th -> at2 index b h = Some idx -> at2 vals b h = Some v ->
  at2 (setitem_rows t index vals) b h = Some (set_rows th idx v).
Proof.
  intros Hth Hi Hv. unfold setitem_rows.
  by rewrite !at2_zip_with, Hth, Hi, Hv.
Qed.

Lemma setitem_rows_grid {A} (t : list (list (list A))) index vals B H :
  grid t B H -> grid index B H -> grid vals B H ->
  grid (setitem_rows t index vals) B H.
Proof.
  intros Ht Hi Hv. unfold setitem_rows.
  apply grid_zip_with; [done|]. by apply grid_zip_with.
Qed.

(** ** Context update *)

Lemma triu1_lookup L S i :
  (i < L)%nat ->
  triu1 L S !! i = Some (map (fun j => bool_decide (i < j)%nat) (seq 0 S)).
Proof. intros Hi. unfold triu1. by rewrite lookup_map_seq. Qed.

Lemma triu1_gather L S idx :
  Forall (fun i => (i < L)%nat) idx ->
  mapM (gather (triu1 L S)) idx
  = Ok (map (fun i => map (fun j => bool_decide (i < j)%nat) (seq 0 S)) idx).
Proof.
  induction 1 as [|i idx Hi Hidx IH]; simpl; [done|].
  unfold gather at 1. rewrite triu1_lookup by done. simpl.
  by rewrite IH.
Qed.


Lemma map_zip_with {A B C D} (h : C -> D) (f : A -> B -> C) l1 l2 :
  map h (zip_with f l1 l2) = zip_with (fun x y => h (f x y)) l1 l2.
Proof.
  revert l2. induction l1 as [|x l1 IH]; intros [|y l2]; simpl; try done.
  by rewrite IH.
Qed.


Lemma zip_with_const_l {A B C} (g : B -> C) (l1 : list A) l2 :
  length l1 = length l2 -> zip_with (fun _ y => g y) l1 l2 = map g l2.
Proof.
  revert l2. induction l1 as [|x l1 IH]; intros [|y l2] Hlen; simpl in *;
    try done.
  rewrite IH; [done|lia].
Qed.






(** ** Dense attention *)

Lemma concat_replicate_singleton {A} (n : nat) (x : A) :
  concat (replicate n [x]) = replicate n x.
Proof. induction n as [|n IH]; simpl; [done|]. by rewrite IH. Qed.

Lemma tiled_causal_mask B L H :
  map (fun mb => concat (replicate H mb)) (TriangularCausalMask B L)
  = replicate B (replicate H (triu1 L L)).
Proof.
  unfold TriangularCausalMask.
  change (map ?f ?l) with (f <$> l). rewrite fmap_replicate.
  by rewrite concat_replicate_singleton.
Qed.






Lemma where_neginf_lookup (mask : list bool) (row : list R) j (m : bool) x :
  mask !! j = Some m -> row !! j = Some x ->
  where_neginf mask row !! j = Some (if m then NegInf else Fin x : score).
Proof.
  intros Hm Hx. unfold where_neginf. rewrite lookup_zip_with, Hm, Hx. done.
Qed.

Lemma causal_row_lookup i S j :
  (j < S)%nat -> causal_row i S !! j = Some (bool_decide (i < j)%nat).
Proof. intros Hj. unfold causal_row. by rewrite lookup_map_seq. Qed.

Lemma dense_weights_dropout cfg st queries keys attn_mask :
  FullAttention.attention_weights cfg st queries keys attn_mask
  = dropout (attention_dropout cfg) st
      (FullAttention.attention_weights cfg Eval queries keys attn_mask).
Proof. reflexivity. Qed.





(** ** What ProbSparse attention ignores *)

(** C9: the output of [ProbAttention.forward] (context and weights) does not
    depend on the [attn_mask] argument; the same holds for the context
    update, which builds its own mask from the Selection Index when the
    causal flag is set and applies none otherwise. *)
Theorem C9_attn_mask_ignored cfg g queries keys values context_in V scores
    index L_Q (m1 m2 : option (list (list (list (list bool))))) :
  ProbAttention.forward cfg g queries keys values m1
  = ProbAttention.forward cfg g queries keys values m2
  /\ ProbAttention._update_context cfg context_in V scores index L_Q m1
     = ProbAttention._update_context cfg context_in V scores index L_Q m2.
Proof. split; reflexivity. Qed.

Lemma dense_single_weight_differs :
  FullAttention.forward (with_dropout ex_plain (1 / 2)) (Train [[[[true]]]])
    ex_q0 ex_q0 ex_one None
  <> FullAttention.forward ex_plain (Train [[[[true]]]])
       ex_q0 ex_q0 ex_one None.
Proof.
  unfold FullAttention.forward, FullAttention.attention_weights.
  unfold einsum_bhls_bshd_blhd, einsum_blhe_bshe_bhls, swap12, ex_one, ex_q0,
    scale_or. simpl.
  unfold matmul, lincomb, transpose, dot, Rsum, vadd, vscale. simpl.
  set (e := exp (1 / sqrt 1 * (0 * 0 + 0))).
  assert (0 < e) as He by apply exp_pos.
  intros [= Heq]. revert Heq.
  replace (e / (e + 0)) with 1 by (field; lra). lra.
Qed.

(** C10: [ProbAttention.forward] returns the same context and weights
    whatever dropout rate the layer is configured with, and so does the
    context update, where the softmax weights are computed; the output of
    dense attention does change with the rate. *)
Theorem C10_dropout_not_applied :
  (forall cfg p g queries keys values attn_mask,
     ProbAttention.forward (with_dropout cfg p) g queries keys values attn_mask
     = ProbAttention.forward cfg g queries keys values attn_mask)
  /\ (forall cfg p context_in V scores index L_Q attn_mask,
        ProbAttention._update_context (with_dropout cfg p)
          context_in V scores index L_Q attn_mask
        = ProbAttention._update_context cfg
            context_in V scores index L_Q attn_mask)
  /\ (exists cfg p st queries keys values,
        FullAttention.forward (with_dropout cfg p) st queries keys values None
        <> FullAttention.forward cfg st queries keys values None).
Proof.
  split; [reflexivity|]. split; [reflexivity|].
  exists ex_plain, (1 / 2), (Train [[[[true]]]]), ex_q0, ex_q0, ex_one.
  exact dense_single_weight_differs.
Qed.

(** ** Dense weights per batch and head *)

(** The weights of dense attention before dropout, per batch and head. *)
Lemma dense_weights_slice cfg queries keys B L H E b h Qbh Kbh :
  has_shape4 queries B L H E ->
  (0 < B)%nat -> (0 < H)%nat -> (0 < L)%nat ->
  at2 (swap12 queries) b h = Some Qbh -> at2 (swap12 keys) b h = Some Kbh ->
  (b < B)%nat -> (h < H)%nat ->
  at2 (FullAttention.attention_weights cfg Eval queries keys None) b h
  = Some (map (fun row => softmax (map (score_scale (scale_or cfg E)) row))
            (if mask_flag cfg
             then zip_with where_neginf (triu1 L L) (matmul_T Qbh Kbh)
             else map (map Fin) (matmul_T Qbh Kbh))).
Proof.
  intros Hq HB HH HL HQbh HKbh Hb Hh.
  destruct (has_shape4_dims _ _ _ _ _ Hq) as (Hq1 & Hq2 & Hq3); [lia..|].
  destruct Hq as [HqB _].
  unfold FullAttention.attention_weights, dropout, einsum_blhe_bshe_bhls.
  rewrite Hq1, Hq2, Hq3, HqB. rewrite at2_map.
  assert (at2 (zip_with (zip_with matmul_T) (swap12 queries) (swap12 keys)) b h
          = Some (matmul_T Qbh Kbh)) as Hsc.
  { rewrite at2_zip_with, HQbh, HKbh. reflexivity. }
  destruct (mask_flag cfg).
  - rewrite tiled_causal_mask, at2_zip_with, at2_replicate, Hsc by done.
    reflexivity.
  - rewrite at2_map, Hsc. reflexivity.
Qed.

Lemma dense_weights_grid cfg queries keys B L S H E :
  has_shape4 queries B L H E -> has_shape4 keys B S H E ->
  (0 < B)%nat -> (0 < H)%nat -> (0 < L)%nat -> (0 < S)%nat ->
  grid (FullAttention.attention_weights cfg Eval queries keys None) B H.
Proof.
  intros Hq Hk HB HH HL HS.
  destruct (has_shape4_dims _ _ _ _ _ Hq) as (Hq1 & Hq2 & Hq3); [lia..|].
  pose proof (swap12_shape _ _ _ _ _ Hq HB HL) as Hq'.
  pose proof (swap12_shape _ _ _ _ _ Hk HB HS) as Hk'.
  apply has_shape4_grid in Hq' as [Hqg _].
  apply has_shape4_grid in Hk' as [Hkg _].
  destruct Hq as [HqB _].
  unfold FullAttention.attention_weights, dropout, einsum_blhe_bshe_bhls.
  rewrite Hq2, HqB. apply grid_map.
  assert (grid (zip_with (zip_with matmul_T) (swap12 queries) (swap12 keys)) B H)
    as Hsg by (by apply grid_zip_with).
  destruct (mask_flag cfg).
  - rewrite tiled_causal_mask. apply grid_zip_with; [apply grid_replicate|done].
  - by apply grid_map.
Qed.

Lemma clip_5_2 : ProbAttention.clip 5 2 = 2%nat.
Proof. rewrite clip_min, ceil_log_2. reflexivity. Qed.

(** ** The gather of the sampled keys *)

(** [index_sample] accepts matrices only. *)
Lemma index_sample_rank (n : nat) (x : tensor R n) (index : tensor nat n) :
  n <> 2%nat -> index_sample x index = Err ValueError.
Proof. by destruct n as [|[|[|n]]]. Qed.

(** [K_expand] and the tiled index have rank 5: the gather of line 60 is
    refused, and nothing after it runs. *)
Lemma sampled_scores_raises Q K g sample_k :
  ProbAttention.sampled_scores Q K g sample_k = Err ValueError.
Proof.
  unfold ProbAttention.sampled_scores. by rewrite index_sample_rank.
Qed.

Lemma prob_QK_raises Q K g sample_k n_top :
  ProbAttention._prob_QK Q K g sample_k n_top = Err ValueError.
Proof. unfold ProbAttention._prob_QK. by rewrite sampled_scores_raises. Qed.

Lemma prob_forward_raises cfg g queries keys values attn_mask :
  ProbAttention.forward cfg g queries keys values attn_mask = Err ValueError.
Proof. unfold ProbAttention.forward. by rewrite prob_QK_raises. Qed.

(** Line 64 on its own does not yield a measure either: after the maxima it
    calls [paddle.div]. *)
Lemma sparsity_measure_fails S L_K M :
  ProbAttention.sparsity_measure S L_K <> Ok M.
Proof.
  unfold ProbAttention.sparsity_measure.
  destruct (mapM _ S) as [mx|e]; [|done]. cbn [bind].
  by destruct (getitem mx 0).
Qed.

(** C1: no importance measure is computed.  On well-shaped queries and keys
    the gather of the sampled keys (line 60) is refused with a ValueError,
    so [_prob_QK] ends there with no sampled score row and no [M] for any
    batch, head or query; and line 64, which would compute [M] from sampled
    scores, yields none on any scores it is given. *)
Theorem C1_importance_measure_not_computed
    Q K g sample_k n_top B H L_Q L_K E :
  has_shape4 Q B H L_Q E -> has_shape4 K B H L_K E ->
  (0 < B)%nat -> (0 < H)%nat -> (0 < L_Q)%nat -> (0 < L_K)%nat ->
  (0 < E)%nat ->
  ProbAttention.sampled_scores Q K g sample_k = Err ValueError /\
  ProbAttention._prob_QK Q K g sample_k n_top = Err ValueError /\
  (forall S M, ProbAttention.sparsity_measure S (dim2 K) <> Ok M).
Proof.
  intros _ _ _ _ _ _ _.
  split; [apply sampled_scores_raises|].
  split; [apply prob_QK_raises|].
  intros S M. apply sparsity_measure_fails.
Qed.

Lemma C1_importance_measure_witness :
  ProbAttention.sampled_scores ex_Q1 ex_K4 ex_rng 2 = Err ValueError /\
  ProbAttention._prob_QK ex_Q1 ex_K4 ex_rng 2 1 = Err ValueError /\
  (forall S M, ProbAttention.sparsity_measure S (dim2 ex_K4) <> Ok M).
Proof.
  apply (C1_importance_measure_not_computed ex_Q1 ex_K4 ex_rng 2 1 1 1 1 4 1);
    [repeat constructor | repeat constructor | lia | lia | lia | lia | lia].
Defined.

(** C5: the sample size is [min(factor * ceil(ln L_K), L_K)] and the
    selection size is [min(factor * ceil(ln L_Q), L_Q)], but the call
    [forward] makes to [_prob_QK] with these sizes ends in a ValueError at
    the gather of line 60, so no Selection Index comes back for any batch
    and head. *)
Theorem C5_sizes_without_selection_index cfg g queries keys B H L_Q L_K E :
  has_shape4 queries B L_Q H E -> has_shape4 keys B L_K H E ->
  (0 < B)%nat -> (0 < H)%nat -> (0 < L_Q)%nat -> (0 < L_K)%nat ->
  let U_part := ProbAttention.clip (factor cfg) (dim1 keys) in
  let n_top := ProbAttention.clip (factor cfg) (dim1 queries) in
  U_part = Nat.min (factor cfg * ceil_log L_K) L_K /\
  n_top = Nat.min (factor cfg * ceil_log L_Q) L_Q /\
  INR (ceil_log L_K) - 1 < ln (INR L_K) <= INR (ceil_log L_K) /\
  INR (ceil_log L_Q) - 1 < ln (INR L_Q) <= INR (ceil_log L_Q) /\
  ProbAttention._prob_QK (swap12 queries) (swap12 keys) g U_part n_top
  = Err ValueError.
Proof.
  intros Hq Hk HB HH HLQ HLK U_part n_top. subst U_part n_top.
  destruct (has_shape4_dims _ _ _ _ _ Hq) as (Hq1 & _ & _); [lia..|].
  destruct (has_shape4_dims _ _ _ _ _ Hk) as (Hk1 & _ & _); [lia..|].
  rewrite Hq1, Hk1.
  split; [apply clip_min|]. split; [apply clip_min|].
  split; [apply ceil_log_bound; lia|]. split; [apply ceil_log_bound; lia|].
  apply prob_QK_raises.
Qed.

Lemma C5_sizes_without_selection_witness :
  let U_part := ProbAttention.clip (factor ex_plain) (dim1 ex_k2) in
  let n_top := ProbAttention.clip (factor ex_plain) (dim1 ex_q3) in
  U_part = Nat.min (factor ex_plain * ceil_log 2) 2 /\
  n_top = Nat.min (factor ex_plain * ceil_log 3) 3 /\
  INR (ceil_log 2) - 1 < ln (INR 2) <= INR (ceil_log 2) /\
  INR (ceil_log 3) - 1 < ln (INR 3) <= INR (ceil_log 3) /\
  ProbAttention._prob_QK (swap12 ex_q3) (swap12 ex_k2) ex_rng U_part n_top
  = Err ValueError.
Proof.
  apply (C5_sizes_without_selection_index ex_plain ex_rng ex_q3 ex_k2 1 1 3 2 1);
    [repeat constructor | repeat constructor | lia | lia | lia | lia].
Defined.

(** ** The length precondition of the causal initialisation *)




(** * Further properties of the attention layers *)

(** ** Softmax rows *)

Lemma exps_nonneg (s : score) : 0 <= exps s.
Proof. destruct s; simpl; [left; apply exp_pos|lra]. Qed.

Lemma Rsum_exps_nonneg (row : list score) : 0 <= Rsum (map exps row).
Proof.
  induction row as [|s row IH]; simpl; [lra|].
  pose proof (exps_nonneg s). unfold Rsum in *. simpl. lra.
Qed.

Lemma Rsum_exps_pos (row : list score) j x :
  row !! j = Some (Fin x) -> 0 < Rsum (map exps row).
Proof.
  revert j. induction row as [|s row IH]; intros j Hj; [done|].
  pose proof (Rsum_exps_nonneg row) as Hrest.
  pose proof (exps_nonneg s) as Hs.
  unfold Rsum in *. simpl. destruct j as [|j]; simpl in Hj.
  - injection Hj as ->. simpl. pose proof (exp_pos x). lra.
  - specialize (IH j Hj). lra.
Qed.

Lemma Rsum_map_div (f : score -> R) (Z : R) (row : list score) :
  Rsum (map (fun s => f s / Z) row) = Rsum (map f row) / Z.
Proof.
  induction row as [|s row IH]; unfold Rsum in *; simpl; [lra|].
  rewrite IH. lra.
Qed.

(** A softmax row with at least one finite score is a probability vector. *)
Lemma softmax_sums_to_1 (row : list score) j x :
  row !! j = Some (Fin x) ->
  Rsum (softmax row) = 1 /\ Forall (fun w => 0 <= w) (softmax row).
Proof.
  intros Hj. pose proof (Rsum_exps_pos row j x Hj) as HZ.
  unfold softmax. split.
  - rewrite Rsum_map_div. field. lra.
  - apply Forall_fmap, Forall_forall. intros s _. simpl.
    pose proof (exps_nonneg s) as Hs. unfold Rdiv.
    apply Rmult_le_pos; [done|]. left. by apply Rinv_0_lt_compat.
Qed.


(** With the causal flag the query at position [i] always sees key [i], so
    its masked row keeps a finite score. *)
Lemma masked_row_has_finite (causal : bool) (i S : nat) (srow : list R) :
  length srow = S -> (0 < S)%nat -> (causal = true -> (i < S)%nat) ->
  exists j x,
    (if causal then where_neginf (causal_row i S) srow else map Fin srow) !! j
    = Some (Fin x).
Proof.
  intros Hlen HS Hi. destruct causal.
  - specialize (Hi eq_refl).
    destruct (lookup_lt_is_Some_2 srow i) as [x Hx]; [lia|].
    exists i, x. erewrite where_neginf_lookup;
      [|by apply causal_row_lookup|exact Hx].
    by rewrite bool_decide_false by lia.
  - destruct (lookup_lt_is_Some_2 srow 0) as [x Hx]; [lia|].
    exists 0%nat, x. change (map Fin srow) with (Fin <$> srow).
    by rewrite list_lookup_fmap, Hx.
Qed.




(** ** The selected-query causal mask *)

Lemma ProbMask_rows_spec B H L index scores :
  grid index B H ->
  (forall b h idx, at2 index b h = Some idx ->
     Forall (fun q => (q < L)%nat) idx) ->
  exists mask,
    ProbMask B H L index scores = Ok mask /\ grid mask B H /\
    forall b h idx k q,
      at2 index b h = Some idx -> idx !! k = Some q ->
      at3 mask b h k = Some (causal_row q (dim3 scores)) /\
      (dim3 scores = L ->
       at3 mask b h k = at3 (TriangularCausalMask B L) b 0 q).
Proof.
  intros Hig Hidx. unfold ProbMask, getitem_rows.
  set (tri := triu1 L (dim3 scores)).
  destruct (mapM2_at2_total (fun th ih => mapM (gather th) ih)
              (replicate B (replicate H tri)) index) as [mask Hmask].
  { intros b h x idx Hx Hi. destruct (at2_lt _ _ _ _ _ _ Hig Hi) as [Hb Hh].
    rewrite at2_replicate in Hx by done. injection Hx as <-.
    unfold tri. rewrite triu1_gather by (by apply (Hidx b h)). eauto. }
  rewrite Hmask. simpl. exists mask. split; [done|].
  split; [exact (mapM2_grid _ _ _ _ _ _ (grid_replicate tri B H) Hig Hmask)|].
  intros b h idx k q Hi Hk.
  destruct (at2_lt _ _ _ _ _ _ Hig Hi) as [Hb Hh].
  destruct (mapM2_at2 _ _ _ _ _ _ _ _ Hmask (at2_replicate tri B H b h Hb Hh) Hi)
    as (mrows & Hmrows & Hgather).
  pose proof (Hidx b h idx Hi) as Hlt.
  unfold tri in Hgather. rewrite triu1_gather in Hgather by done.
  injection Hgather as <-.
  assert (q < L)%nat as Hq by exact (Forall_lookup_1 _ _ _ _ Hlt Hk).
  assert (at3 mask b h k = Some (causal_row q (dim3 scores))) as Hrow.
  { unfold at3. rewrite Hmrows. simpl.
    change (map ?f idx) with (f <$> idx). by rewrite list_lookup_fmap, Hk. }
  split; [done|]. intros HS. rewrite Hrow, HS.
  unfold at3, at2, TriangularCausalMask.
  rewrite lookup_replicate_2 by done. simpl.
  by rewrite triu1_lookup.
Qed.



(** ** The masked scores and weights of the selected queries *)

Lemma masked_scores_spec cfg B H L_Q index scores n_top L_K :
  has_shape4 scores B H n_top L_K -> grid index B H ->
  (forall b h idx, at2 index b h = Some idx ->
     length idx = n_top /\ Forall (fun i => (i < L_Q)%nat) idx) ->
  (0 < B)%nat -> (0 < H)%nat ->
  exists scores',
    (if mask_flag cfg
     then attn_mask <- ProbMask B H L_Q index scores ;;
          Ok (zip_with (zip_with (zip_with where_neginf)) attn_mask scores)
     else Ok (map (map (map (map Fin))) scores)) = Ok scores' /\
    grid scores' B H /\
    forall b h idx sbh,
      at2 index b h = Some idx -> at2 scores b h = Some sbh ->
      at2 (map (map (map softmax)) scores') b h
      = Some (zip_with (masked_softmax_row (mask_flag cfg)) idx sbh).
Proof.
  intros Hs Hig Hidx HB HH.
  assert (forall b h sbh, at2 scores b h = Some sbh ->
            Forall (fun r : list R => length r = dim3 scores) sbh) as Hwidth.
  { intros b h sbh Hsbh.
    destruct (has_shape4_lookup _ _ _ _ _ _ _ _ Hs Hsbh) as (_ & _ & Hlen & Hrows).
    destruct n_top as [|n].
    - destruct sbh; [constructor|done].
    - destruct (has_shape4_dims _ _ _ _ _ Hs) as (_ & _ & ->); [lia..|done]. }
  apply has_shape4_grid in Hs as [Hsg Hss].
  destruct (mask_flag cfg).
  - destruct (ProbMask_rows_spec B H L_Q index scores Hig)
      as (mask & -> & Hmg & Hrows).
    { intros b h idx Hi. by destruct (Hidx b h idx Hi). }
    simpl. eexists. split; [done|]. split; [by apply grid_zip_with|].
    intros b h idx sbh Hi Hsbh.
    destruct (at2_lt _ _ _ _ _ _ Hig Hi) as [Hb Hh].
    destruct (grid_at2 _ _ _ _ _ Hmg Hb Hh) as [mbh Hmbh].
    rewrite at2_map, at2_zip_with, Hmbh, Hsbh. simpl. f_equal.
    rewrite map_zip_with.
    destruct (Hidx b h idx Hi) as [Hilen _].
    destruct (Hss b h sbh Hsbh) as [Hslen _].
    apply list_eq. intros k. rewrite !lookup_zip_with.
    destruct (idx !! k) as [q|] eqn:Hk.
    + destruct (Hrows b h idx k q Hi Hk) as [Hrow _].
      unfold at3 in Hrow. rewrite Hmbh in Hrow. simpl in Hrow. rewrite Hrow.
      simpl. destruct (sbh !! k) as [srow|] eqn:Hsrow; [|done]. simpl.
      unfold masked_softmax_row.
      by rewrite (Forall_lookup_1 _ _ _ _ (Hwidth b h sbh Hsbh) Hsrow).
    + assert (sbh !! k = None) as ->.
      { apply lookup_ge_None_2. apply lookup_ge_None_1 in Hk. lia. }
      by destruct (mbh !! k).
  - eexists. split; [done|]. split; [by apply grid_map|].
    intros b h idx sbh Hi Hsbh.
    rewrite !at2_map, Hsbh. simpl. f_equal.
    destruct (Hidx b h idx Hi) as [Hilen _].
    destruct (Hss b h sbh Hsbh) as [Hslen _].
    rewrite map_map.
    by rewrite (zip_with_const_l (masked_softmax_row false 0) idx)
      by congruence.
Qed.

(** When the weights are requested, [_update_context] returns them, and per
    batch and head they are the uniform placeholder with the softmax rows of
    the selected queries assigned at the selected positions. *)
Lemma update_context_weights_spec cfg context_in V scores index L_Q attn_mask
    B H L_V D n_top L_K :
  has_shape4 context_in B H L_Q D -> has_shape4 V B H L_V D ->
  has_shape4 scores B H n_top L_K -> grid index B H ->
  (forall b h idx, at2 index b h = Some idx ->
     length idx = n_top /\ Forall (fun i => (i < L_Q)%nat) idx) ->
  (0 < B)%nat -> (0 < H)%nat -> (0 < L_V)%nat ->
  output_attention cfg = true ->
  exists ctx attns,
    ProbAttention._update_context cfg context_in V scores index L_Q attn_mask
      = Ok (ctx, Some attns) /\
    grid attns B H /\
    forall b h idx sbh,
      at2 index b h = Some idx -> at2 scores b h = Some sbh ->
      at2 attns b h
      = Some (set_rows (replicate L_V (replicate L_V (1 / INR L_V))) idx
                (zip_with (masked_softmax_row (mask_flag cfg)) idx sbh)).
Proof.
  intros Hc HV Hs Hig Hidx HB HH HLV Hout.
  destruct (has_shape4_dims _ _ _ _ _ HV) as (HV1 & HV2 & HV3); [lia..|].
  apply has_shape4_grid in HV as [HVg HVs].
  pose proof HVg as [HVlen _].
  unfold ProbAttention._update_context. rewrite HV1, HV2, HV3, HVlen, Hout.
  destruct (masked_scores_spec cfg B H L_Q index scores n_top L_K)
    as (scores' & -> & Hs'g & Hattn); [done..|].
  cbn [bind].
  set (attn := map (map (map softmax)) scores') in *.
  assert (grid attn B H) as Hag by (by apply grid_map).
  set (attns0 := replicate B (replicate H
                   (replicate L_V (replicate L_V (1 / INR L_V))))).
  eexists _, _. split; [reflexivity|].
  split; [apply setitem_rows_grid; [apply grid_replicate|done|done]|].
  intros b h idx sbh Hi Hsbh.
  destruct (at2_lt _ _ _ _ _ _ Hig Hi) as [Hb Hh].
  apply setitem_rows_at2; [|done|by apply Hattn].
  unfold attns0. by apply at2_replicate.
Qed.

Lemma Rsum_replicate (n : nat) (x : R) : Rsum (replicate n x) = INR n * x.
Proof.
  induction n as [|n IH]; [simpl; unfold Rsum; simpl; lra|].
  rewrite S_INR. simpl. unfold Rsum in *. simpl. rewrite IH. lra.
Qed.

Lemma masked_softmax_row_stochastic (causal : bool) q (srow : list R) :
  (0 < length srow)%nat -> (causal = true -> (q < length srow)%nat) ->
  Rsum (masked_softmax_row causal q srow) = 1 /\
  Forall (fun w => 0 <= w) (masked_softmax_row causal q srow).
Proof.
  intros Hlen Hq.
  destruct (masked_row_has_finite causal q (length srow) srow)
    as (j & x & Hj); [done..|].
  by apply (softmax_sums_to_1 _ j x).
Qed.



(** In self-attention every row of the weights [ProbAttention] returns sums
    to 1: the placeholder rows by construction, the selected rows because
    the selected-query mask never suppresses a whole row. *)
Theorem prob_weights_rows_sum_to_1 cfg context_in V scores index
    L_Q attn_mask B H L D n_top :
  has_shape4 context_in B H L_Q D -> has_shape4 V B H L D ->
  has_shape4 scores B H n_top L -> grid index B H ->
  (forall b h idx, at2 index b h = Some idx ->
     length idx = n_top /\ NoDup idx /\ Forall (fun i => (i < L_Q)%nat) idx) ->
  (0 < B)%nat -> (0 < H)%nat -> (0 < L)%nat ->
  output_attention cfg = true -> (L_Q <= L)%nat ->
  exists ctx attns,
    ProbAttention._update_context cfg context_in V scores index L_Q attn_mask
      = Ok (ctx, Some attns) /\
    forall b h q row, at3 attns b h q = Some row -> Rsum row = 1.
Proof.
  intros Hc HV Hs Hig Hidx HB HH HL Hout HLQ.
  destruct (update_context_weights_spec cfg context_in V scores index L_Q
              attn_mask B H L D n_top L)
    as (ctx & attns & Hret & Hag & Hsl); [done..| |done|done|done|done|].
  { intros b h idx Hi. by destruct (Hidx b h idx Hi) as (? & _ & ?). }
  exists ctx, attns. split; [done|]. intros b h q row Hrow.
  apply at3_Some in Hrow as (ab & abh & Hab & Habh & Hq).
  assert (at2 attns b h = Some abh) as Hat by (apply at2_Some; eauto).
  destruct (at2_lt _ _ _ _ _ _ Hag Hat) as [Hb Hh].
  destruct (grid_at2 _ _ _ _ _ Hig Hb Hh) as [idx Hi].
  pose proof Hs as Hs0. apply has_shape4_grid in Hs0 as [Hsg Hss].
  destruct (grid_at2 _ _ _ _ _ Hsg Hb Hh) as [sbh Hsbh].
  pose proof (Hsl b h idx sbh Hi Hsbh) as Habh'.
  assert (abh = set_rows (replicate L (replicate L (1 / INR L))) idx
                  (zip_with (masked_softmax_row (mask_flag cfg)) idx sbh))
    as Hset by congruence.
  rewrite Hset in Hq.
  destruct (Hidx b h idx Hi) as (Hilen & Hnd & Hlt).
  destruct (Hss b h sbh Hsbh) as [Hslen Hsrows].
  destruct (decide (q ∈ idx)) as [Hin|Hnin].
  - apply list_elem_of_lookup in Hin as [k Hk].
    destruct (lookup_lt_is_Some_2 sbh k) as [srow Hsrow].
    { apply lookup_lt_Some in Hk. lia. }
    pose proof (Forall_lookup_1 _ _ _ _ Hsrows Hsrow) as Hlen. simpl in Hlen.
    pose proof (Forall_lookup_1 _ _ _ _ Hlt Hk) as Hql. simpl in Hql.
    rewrite (set_rows_written _ _ _ k q
               (masked_softmax_row (mask_flag cfg) q srow) Hnd Hk) in Hq.
    + injection Hq as <-.
      apply masked_softmax_row_stochastic; [lia|intros _; lia].
    + apply lookup_zip_with_Some. eauto.
    + rewrite length_replicate. lia.
  - rewrite (set_rows_frame _ _ _ _ Hnin) in Hq.
    apply lookup_replicate in Hq as [-> _].
    rewrite Rsum_replicate. field. apply not_0_INR. lia.
Qed.

Lemma prob_weights_rows_sum_to_1_witness :
  exists ctx attns,
    ProbAttention._update_context (Config true 5 None 0 true)
      ex_ctx ex_vals ex_scores ex_index 2 None = Ok (ctx, Some attns) /\
    forall b h q row, at3 attns b h q = Some row -> Rsum row = 1.
Proof.
  apply (prob_weights_rows_sum_to_1 (Config true 5 None 0 true)
           ex_ctx ex_vals ex_scores ex_index 2 None 1 1 2 1 1);
    [repeat constructor | repeat constructor | repeat constructor
     | repeat constructor | | lia | lia | lia | reflexivity | lia].
  intros [|b] [|h] idx Hi; try (destruct b; discriminate Hi);
    try (destruct h; discriminate Hi).
  injection Hi as <-.
  split; [reflexivity|]. split; [repeat constructor; by intros ?%elem_of_nil|].
  repeat constructor.
Defined.

(** ** Rows of a product *)

Lemma lincomb_length D (a : list R) (V : list (list R)) :
  Forall (fun r => length r = D) V -> length (lincomb D a V) = D.
Proof.
  intros HV. unfold lincomb. revert a.
  induction HV as [|r V Hr HV IH]; intros [|x a]; simpl;
    try apply length_replicate.
  apply vadd_length; [|apply IH]. unfold vscale. by rewrite length_map.
Qed.

(** ** Causality of dense attention *)











(** ** Sizes at the boundary *)

Lemma ceil_log_1 : ceil_log 1 = 0%nat.
Proof.
  apply ceil_log_eq. simpl.
  assert (0 - 1 < 0) as Hlt by lra.
  pose proof (exp_increasing (0 - 1) 0 Hlt) as Hexp.
  rewrite exp_0 in *. lra.
Qed.

Lemma sizes_bounded_zero_aux (c : nat) :
  (forall L, ProbAttention.clip c L <= L)%nat /\ ProbAttention.clip c 1 = 0%nat.
Proof.
  split.
  - intros L. rewrite clip_min. lia.
  - rewrite clip_min, ceil_log_1. lia.
Qed.

(** The sample size and the selection size never exceed the sequence
    length, and for a sequence of length 1 they are 0 whatever the factor:
    a single key is never sampled, a single query never selected. *)
Theorem sizes_bounded_and_zero_at_length_1 (c L : nat) :
  (ProbAttention.clip c L <= L)%nat /\ ProbAttention.clip c 1 = 0%nat.
Proof.
  destruct (sizes_bounded_zero_aux c) as [Hle Hone]. split; [apply Hle|done].
Qed.

(** ** The shape of the dense output *)

Lemma dense_context_has_shape cfg st queries keys values B L S H E D :
  has_shape4 queries B L H E -> has_shape4 keys B S H E ->
  has_shape4 values B S H D ->
  (0 < B)%nat -> (0 < H)%nat -> (0 < L)%nat -> (0 < S)%nat ->
  (mask_flag cfg = true -> L = S) ->
  dropout_covers st B H L S ->
  has_shape4 (FullAttention.forward cfg st queries keys values None).1
             B L H D.
Proof.
  intros Hq Hk Hv HB HH HL HS Hcausal Hst.
  destruct (has_shape4_dims _ _ _ _ _ Hv) as (_ & _ & Hv3); [lia..|].
  pose proof (swap12_shape _ _ _ _ _ Hq HB HL) as Hq'.
  pose proof (swap12_shape _ _ _ _ _ Hk HB HS) as Hk'.
  pose proof (swap12_shape _ _ _ _ _ Hv HB HS) as Hv'.
  apply has_shape4_grid in Hq' as [Hqg Hqs].
  apply has_shape4_grid in Hk' as [Hkg Hks].
  apply has_shape4_grid in Hv' as [Hvg Hvs].
  set (A := FullAttention.attention_weights cfg st queries keys None).
  assert ((FullAttention.forward cfg st queries keys values None).1
          = swap12 (zip_with (zip_with (matmul D)) A (swap12 values))) as ->.
  { unfold FullAttention.forward. rewrite Hv3.
    by destruct (output_attention cfg). }
  pose proof (dense_weights_grid cfg queries keys B L S H E
                Hq Hk HB HH HL HS) as HA0g.
  assert (forall b h Abh, at2 (FullAttention.attention_weights cfg Eval
                                 queries keys None) b h = Some Abh ->
            length Abh = L) as HA0len.
  { intros b h Abh HAbh. destruct (at2_lt _ _ _ _ _ _ HA0g HAbh) as [Hb Hh].
    destruct (grid_at2 _ _ _ _ _ Hqg Hb Hh) as [Qbh HQbh].
    destruct (grid_at2 _ _ _ _ _ Hkg Hb Hh) as [Kbh HKbh].
    rewrite (dense_weights_slice cfg queries keys B L H E b h Qbh Kbh)
      in HAbh by done.
    injection HAbh as <-.
    destruct (Hqs b h Qbh HQbh) as [HQlen _].
    rewrite !length_map. destruct (mask_flag cfg).
    - unfold triu1, matmul_T.
      rewrite length_zip_with, !length_map, length_seq. lia.
    - unfold matmul_T. by rewrite !length_map. }
  assert (grid A B H /\ forall b h Abh, at2 A b h = Some Abh -> length Abh = L)
    as [HAg HAlen].
  { unfold A. rewrite dense_weights_dropout. destruct st as [|keep]; [done|].
    unfold dropout. apply has_shape4_grid in Hst as [Hkg' Hks'].
    set (A0 := FullAttention.attention_weights cfg Eval queries keys None) in *.
    split; [by apply grid_zip_with|].
    intros b h Abh HAbh. rewrite at2_zip_with in HAbh.
    destruct (at2 keep b h) as [kbh|] eqn:Hkbh; [|done].
    destruct (at2 A0 b h) as [A0bh|] eqn:HA0bh; [|done].
    injection HAbh as <-.
    destruct (Hks' b h kbh Hkbh) as [Hklen _].
    rewrite length_zip_with, (HA0len b h A0bh HA0bh). lia. }
  apply swap12_shape; [|done|done].
  apply has_shape4_grid. split; [by apply grid_zip_with|].
  intros b h th Hth. rewrite at2_zip_with in Hth.
  destruct (at2 A b h) as [Abh|] eqn:HAbh; [|done]. simpl in Hth.
  destruct (at2 (swap12 values) b h) as [Vbh|] eqn:HVbh; [|done].
  injection Hth as <-.
  destruct (Hvs b h Vbh HVbh) as [_ HVrows].
  unfold matmul. split; [by rewrite length_map, (HAlen b h Abh HAbh)|].
  apply Forall_fmap, Forall_forall. intros a _. simpl.
  by apply lincomb_length.
Qed.



(** ** The projection wrapper *)

Import AttentionLayer.

Lemma chunks_length {A} (k n : nat) (l : list A) : length (chunks k n l) = k.
Proof. revert l. induction k as [|k IH]; intros l; simpl; [done|]. by rewrite IH. Qed.

Lemma chunks_rows {A} (k n : nat) (l : list A) :
  length l = (k * n)%nat -> Forall (fun c => length c = n) (chunks k n l).
Proof.
  revert l. induction k as [|k IH]; intros l Hlen; simpl; [constructor|].
  constructor.
  - rewrite length_take. lia.
  - apply IH. rewrite length_drop. lia.
Qed.

Lemma chunks_concat {A} (xs : list (list A)) (n : nat) :
  Forall (fun x => length x = n) xs -> chunks (length xs) n (concat xs) = xs.
Proof.
  induction 1 as [|x xs Hx Hxs IH]; simpl; [done|].
  rewrite take_app_length' by done. rewrite drop_app_length' by done.
  by rewrite IH.
Qed.

Lemma concat_length_uniform {A} (xs : list (list A)) (n : nat) :
  Forall (fun x => length x = n) xs -> length (concat xs) = (length xs * n)%nat.
Proof.
  induction 1 as [|x xs Hx Hxs IH]; simpl; [done|].
  rewrite length_app, IH. lia.
Qed.

Lemma concat_concat {A} (t : list (list (list A))) :
  concat (concat t) = concat (map (@concat A) t).
Proof.
  induction t as [|x t IH]; simpl; [done|]. by rewrite concat_app, IH.
Qed.

Lemma apply_linear_length (l : Linear) (x : list R) d_in d_out :
  linear_shape l d_in d_out -> length (apply_linear l x) = d_out.
Proof.
  intros (_ & Hb & Hw). unfold apply_linear. apply vadd_length; [|done].
  rewrite Hb. by apply lincomb_length.
Qed.

Lemma split_heads_spec (H d : nat) (x : list R) :
  (0 < H)%nat -> length x = (H * d)%nat ->
  split_heads H x = Ok (chunks H d x).
Proof.
  intros HH Hlen. unfold split_heads. rewrite Hlen.
  rewrite decide_True.
  - by rewrite (Nat.mul_comm H d), Nat.div_mul by lia.
  - split; [lia|]. rewrite Nat.mul_comm. apply Nat.Div0.mod_mul.
Qed.

(** A projection followed by the split into heads returns, for every
    position, [n_heads] heads of equal width cut from the projected
    feature vector in order. *)
Lemma project_heads_spec (l : Linear) (H d d_in B L : nat)
    (t : list (list (list R))) :
  linear_shape l d_in (H * d) -> (0 < H)%nat -> grid t B L ->
  exists t',
    project_heads l H t = Ok t' /\ has_shape4 t' B L H d /\
    forall b i x, at2 t b i = Some x ->
      at2 t' b i = Some (chunks H d (apply_linear l x)).
Proof.
  intros Hl HH Htg.
  assert (forall x, split_heads H (apply_linear l x)
                    = Ok (chunks H d (apply_linear l x))) as Hsplit.
  { intros x. apply split_heads_spec; [done|].
    by apply (apply_linear_length l x d_in). }
  unfold project_heads.
  destruct (mapM_at2_total (fun x => split_heads H (apply_linear l x)) t)
    as [t' Ht']; [intros; eauto|].
  exists t'. split; [done|].
  assert (forall b i x, at2 t b i = Some x ->
            at2 t' b i = Some (chunks H d (apply_linear l x))) as Hat.
  { intros b i x Hx. destruct (mapM_at2 _ _ _ _ _ _ Ht' Hx) as (z & Hz & Hf).
    rewrite Hsplit in Hf. congruence. }
  split; [|done].
  pose proof (mapM_grid _ _ _ _ _ Htg Ht') as Hg.
  apply has_shape4_grid. split; [done|].
  intros b i hs Hhs. destruct (at2_lt _ _ _ _ _ _ Hg Hhs) as [Hb Hi].
  destruct (grid_at2 _ _ _ _ _ Htg Hb Hi) as [x Hx].
  rewrite (Hat b i x Hx) in Hhs. injection Hhs as <-.
  split; [apply chunks_length|]. apply chunks_rows.
  by apply (apply_linear_length l x d_in).
Qed.

Lemma merge_rows_heads (L H D : nat) (t : list (list (list R))) :
  length t = L -> (0 < L)%nat ->
  Forall (fun hs => length hs = H /\ Forall (fun r => length r = D) hs) t ->
  merge_rows L t = Ok (map (@concat R) t).
Proof.
  intros Hlen HL Hall. unfold merge_rows. rewrite concat_concat.
  assert (Forall (fun x => length x = (H * D)%nat) (map (@concat R) t)) as Hrows.
  { apply Forall_fmap. eapply Forall_impl; [exact Hall|].
    intros hs [Hh Hr]. simpl. rewrite (concat_length_uniform hs D) by done.
    by rewrite Hh. }
  assert (length (concat (map (@concat R) t)) = (H * D * L)%nat) as ->.
  { rewrite (concat_length_uniform _ (H * D)), length_map, Hlen by done. lia. }
  rewrite decide_True by (split; [lia|apply Nat.Div0.mod_mul]).
  rewrite Nat.div_mul by lia. f_equal.
  replace L with (length (map (@concat R) t)) by (by rewrite length_map).
  by apply chunks_concat.
Qed.

Lemma merge_rows_shape (L A1 A2 D W : nat) (t : list (list (list R))) :
  length t = A1 -> (0 < L)%nat -> (A1 * A2 * D = L * W)%nat ->
  Forall (fun hs => length hs = A2 /\ Forall (fun r => length r = D) hs) t ->
  exists rows, merge_rows L t = Ok rows /\ length rows = L /\
               Forall (fun r => length r = W) rows.
Proof.
  intros Hlen HL Hsize Hall. unfold merge_rows.
  assert (length (concat (concat t)) = (L * W)%nat) as Hflat.
  { rewrite (concat_length_uniform _ D).
    - rewrite (concat_length_uniform t A2), Hlen; [done|].
      eapply Forall_impl; [exact Hall|]. by intros hs [? _].
    - apply Forall_concat. eapply Forall_impl; [exact Hall|]. by intros hs [_ ?]. }
  rewrite Hflat.
  rewrite (Nat.mul_comm L W).
  rewrite decide_True by (split; [lia|apply Nat.Div0.mod_mul]).
  rewrite Nat.div_mul by lia.
  eexists. split; [done|]. split; [apply chunks_length|].
  apply chunks_rows. lia.
Qed.

Lemma mapM_Ok_map {A B} (f : A -> result B) (g : A -> B) (l : list A) :
  Forall (fun x => f x = Ok (g x)) l -> mapM f l = Ok (map g l).
Proof.
  induction 1 as [|x l Hx Hl IH]; simpl; [done|]. by rewrite Hx, IH.
Qed.

Lemma grid_dim1 {A} (t : list (list A)) B L :
  grid t B L -> (0 < B)%nat -> dim1 t = L.
Proof.
  intros [HB Hall] HB0. unfold dim1. destruct t as [|tb t]; simpl in *; [lia|].
  by apply Forall_cons in Hall as [? _].
Qed.

(** With [mix] off, the wrapper merges the heads position by position: its
    output at a batch entry and position is the output projection of the
    concatenated heads of the inner attention's context there, and the
    weights of the inner attention are passed on unchanged. *)
Theorem layer_merges_heads_per_position a queries keys values m
    q' k' v' ctx attn B L H D :
  mix a = false ->
  project_heads (query_projection a) (n_heads a) queries = Ok q' ->
  project_heads (key_projection a) (n_heads a) keys = Ok k' ->
  project_heads (value_projection a) (n_heads a) values = Ok v' ->
  inner_attention a q' k' v' m = Ok (ctx, attn) ->
  has_shape4 ctx B L H D -> dim1 queries = L -> (0 < L)%nat ->
  AttentionLayer.forward a queries keys values m
  = Ok (map (map (fun heads =>
                    apply_linear (out_projection a) (concat heads))) ctx,
        attn).
Proof.
  intros Hmix Hq Hk Hv Hinner Hctx HL HL0.
  unfold AttentionLayer.forward. rewrite Hq. cbn [bind].
  rewrite Hk. cbn [bind]. rewrite Hv. cbn [bind]. rewrite Hinner. cbn [bind].
  rewrite Hmix, HL.
  rewrite (mapM_Ok_map _ (map (@concat R))).
  - cbn [bind]. do 2 f_equal. rewrite map_map. apply map_ext.
    intros tb. by rewrite map_map.
  - destruct Hctx as [_ Hall]. eapply Forall_impl; [exact Hall|].
    intros tb [Hlen Hrows]. simpl. by apply (merge_rows_heads L H D).
Qed.

(** The wrapper returns an output of shape [B, L, d_out] whenever its inner
    attention returns a context of shape [B, L, H, D] on the projected
    inputs, with [mix] on or off. *)
Lemma layer_output_has_shape a queries keys values m q' k' v' ctx attn
    B L H D d_out :
  project_heads (query_projection a) (n_heads a) queries = Ok q' ->
  project_heads (key_projection a) (n_heads a) keys = Ok k' ->
  project_heads (value_projection a) (n_heads a) values = Ok v' ->
  inner_attention a q' k' v' m = Ok (ctx, attn) ->
  has_shape4 ctx B L H D -> dim1 queries = L ->
  (0 < B)%nat -> (0 < L)%nat ->
  linear_shape (out_projection a) (H * D) d_out ->
  exists out,
    AttentionLayer.forward a queries keys values m = Ok (out, attn) /\
    has_shape3 out B L d_out.
Proof.
  intros Hq Hk Hv Hinner Hctx HL HB HL0 Hout.
  unfold AttentionLayer.forward. rewrite Hq. cbn [bind].
  rewrite Hk. cbn [bind]. rewrite Hv. cbn [bind]. rewrite Hinner. cbn [bind].
  rewrite HL.
  assert (exists t, has_shape4 t B (if mix a then H else L)
                      (if mix a then L else H) D /\
                    (if mix a then swap12 ctx else ctx) = t) as (t & Ht & ->).
  { destruct (mix a); eexists; (split; [|done]); [|done].
    by apply swap12_shape. }
  destruct Ht as [HtB Htall].
  destruct (mapM_total (merge_rows L) t) as [rows Hrows].
  { eapply Forall_impl; [exact Htall|]. intros tb [Hlen Hall]. simpl.
    destruct (merge_rows_shape L (if mix a then H else L)
                (if mix a then L else H) D (H * D) tb Hlen HL0)
      as (r & -> & _); [destruct (mix a); lia|done|eauto]. }
  rewrite Hrows. cbn [bind]. eexists. split; [done|].
  assert (Forall (fun r => length r = L /\
                   Forall (fun x : list R => length x = (H * D)%nat) r) rows)
    as Hshape.
  { apply Forall_lookup_2. intros b r Hr.
    destruct (mapM_lookup _ _ _ _ _ Hrows Hr) as (tb & Htb & Hm).
    pose proof (Forall_lookup_1 _ _ _ _ Htall Htb) as [Hlen Hall].
    destruct (merge_rows_shape L (if mix a then H else L)
                (if mix a then L else H) D (H * D) tb Hlen HL0)
      as (r' & Hr' & ? & ?); [destruct (mix a); lia|done|].
    assert (r' = r) as -> by congruence. done. }
  split; [split|].
  - by rewrite length_map, (mapM_length _ _ _ Hrows).
  - apply Forall_fmap. eapply Forall_impl; [exact Hshape|].
    intros r [Hlen _]. simpl. by rewrite length_map.
  - apply Forall_fmap. eapply Forall_impl; [exact Hshape|].
    intros r [_ Hall]. simpl. apply Forall_fmap, Forall_forall.
    intros x _. simpl. by apply (apply_linear_length _ x (H * D)).
Qed.

Lemma layer_projections a queries keys values B L S H d_model d_k d_v :
  n_heads a = H -> (0 < H)%nat ->
  linear_shape (query_projection a) d_model (H * d_k) ->
  linear_shape (key_projection a) d_model (H * d_k) ->
  linear_shape (value_projection a) d_model (H * d_v) ->
  has_shape3 queries B L d_model -> has_shape3 keys B S d_model ->
  has_shape3 values B S d_model ->
  exists q' k' v',
    project_heads (query_projection a) (n_heads a) queries = Ok q' /\
    project_heads (key_projection a) (n_heads a) keys = Ok k' /\
    project_heads (value_projection a) (n_heads a) values = Ok v' /\
    has_shape4 q' B L H d_k /\ has_shape4 k' B S H d_k /\
    has_shape4 v' B S H d_v.
Proof.
  intros -> HH Hlq Hlk Hlv [Hqg _] [Hkg _] [Hvg _].
  destruct (project_heads_spec _ _ d_k d_model B L queries Hlq HH Hqg)
    as (q' & Hq' & Hqs & _).
  destruct (project_heads_spec _ _ d_k d_model B S keys Hlk HH Hkg)
    as (k' & Hk' & Hks & _).
  destruct (project_heads_spec _ _ d_v d_model B S values Hlv HH Hvg)
    as (v' & Hv' & Hvs & _).
  exists q', k', v'. done.
Qed.

(** With dense attention inside, the wrapper maps queries of shape
    [B, L, d_model] and keys and values of shape [B, S, d_model] to an
    output of shape [B, L, d_out], with [mix] on or off. *)
Theorem layer_with_dense_attention_shape a cfg st queries keys values
    B L S H d_model d_k d_v d_out :
  inner_attention a = dense cfg st ->
  n_heads a = H -> (0 < H)%nat ->
  linear_shape (query_projection a) d_model (H * d_k) ->
  linear_shape (key_projection a) d_model (H * d_k) ->
  linear_shape (value_projection a) d_model (H * d_v) ->
  linear_shape (out_projection a) (H * d_v) d_out ->
  has_shape3 queries B L d_model -> has_shape3 keys B S d_model ->
  has_shape3 values B S d_model ->
  (0 < B)%nat -> (0 < L)%nat -> (0 < S)%nat ->
  (mask_flag cfg = true -> L = S) -> dropout_covers st B H L S ->
  exists out attn,
    AttentionLayer.forward a queries keys values None = Ok (out, attn) /\
    has_shape3 out B L d_out.
Proof.
  intros Hinner Hn HH Hlq Hlk Hlv Hlo Hq Hk Hv HB HL HS Hcausal Hst.
  destruct (layer_projections a queries keys values B L S H d_model d_k d_v)
    as (q' & k' & v' & Hq' & Hk' & Hv' & Hqs & Hks & Hvs); [done..|].
  pose proof (dense_context_has_shape cfg st q' k' v' B L S H d_k d_v
                Hqs Hks Hvs HB HH HL HS Hcausal Hst) as Hctx.
  destruct (FullAttention.forward cfg st q' k' v' None) as [ctx attn] eqn:Hfw.
  destruct (layer_output_has_shape a queries keys values None q' k' v' ctx attn
              B L H d_v d_out) as (out & Hret & Hshape); try done.
  - rewrite Hinner. unfold dense. by rewrite Hfw.
  - destruct Hq as [Hqg _]. by apply (grid_dim1 _ B).
  - eauto.
Qed.

Lemma layer_merges_heads_witness :
  exists ctx attn,
    AttentionLayer.forward ex_layer_dense ex_x2 ex_x2 ex_x2 None
    = Ok (map (map (fun heads =>
                      apply_linear (out_projection ex_layer_dense)
                                   (concat heads))) ctx,
          attn).
Proof.
  destruct (layer_projections ex_layer_dense ex_x2 ex_x2 ex_x2 1 2 2 1 1 1 1)
    as (q' & k' & v' & Hq & Hk & Hv & Hqs & Hks & Hvs);
    [reflexivity | lia | repeat constructor | repeat constructor
     | repeat constructor | repeat constructor | repeat constructor
     | repeat constructor |].
  exists (FullAttention.forward ex_plain Eval q' k' v' None).1,
         (FullAttention.forward ex_plain Eval q' k' v' None).2.
  apply (layer_merges_heads_per_position ex_layer_dense ex_x2 ex_x2 ex_x2 None
           q' k' v' _ _ 1 2 1 1);
    [reflexivity | exact Hq | exact Hk | exact Hv | | | reflexivity | lia].
  - change (inner_attention ex_layer_dense) with (dense ex_plain Eval).
    unfold dense. by rewrite <- surjective_pairing.
  - apply (dense_context_has_shape ex_plain Eval q' k' v' 1 2 2 1 1 1);
      [done | done | done | lia | lia | lia | lia | discriminate | exact I].
Defined.

Lemma layer_with_dense_attention_witness :
  exists out attn,
    AttentionLayer.forward ex_layer_dense ex_x2 ex_x2 ex_x2 None
      = Ok (out, attn) /\
    has_shape3 out 1 2 1.
Proof.
  apply (layer_with_dense_attention_shape ex_layer_dense ex_plain Eval
           ex_x2 ex_x2 ex_x2 1 2 2 1 1 1 1 1);
    [reflexivity | reflexivity | lia | repeat constructor | repeat constructor
     | repeat constructor | repeat constructor | repeat constructor
     | repeat constructor | repeat constructor | lia | lia | lia
     | discriminate | exact I].
Defined.

(** With ProbSparse attention inside, the wrapper produces no output: the
    projections and the split into heads go through, and the ValueError of
    the gather in [_prob_QK] reaches the caller. *)
Theorem layer_with_prob_attention_raises a cfg g queries keys values attn_mask
    B L S H d_model d_k d_v :
  inner_attention a = prob cfg g ->
  n_heads a = H -> (0 < H)%nat ->
  linear_shape (query_projection a) d_model (H * d_k) ->
  linear_shape (key_projection a) d_model (H * d_k) ->
  linear_shape (value_projection a) d_model (H * d_v) ->
  has_shape3 queries B L d_model -> has_shape3 keys B S d_model ->
  has_shape3 values B S d_model ->
  (0 < B)%nat -> (0 < L)%nat -> (0 < S)%nat ->
  AttentionLayer.forward a queries keys values attn_mask = Err ValueError.
Proof.
  intros Hinner Hn HH Hlq Hlk Hlv Hq Hk Hv _ _ _.
  destruct (layer_projections a queries keys values B L S H d_model d_k d_v)
    as (q' & k' & v' & Hq' & Hk' & Hv' & _); [done..|].
  unfold AttentionLayer.forward. rewrite Hq', Hk', Hv', Hinner. cbn [bind].
  unfold prob. by rewrite prob_forward_raises.
Qed.

Lemma layer_with_prob_attention_witness :
  AttentionLayer.forward ex_layer_prob ex_x2 ex_x2 ex_x2 None = Err ValueError.
Proof.
  apply (layer_with_prob_attention_raises ex_layer_prob ex_plain ex_rng
           ex_x2 ex_x2 ex_x2 None 1 2 2 1 1 1 1);
    [reflexivity | reflexivity | lia | repeat constructor | repeat constructor
     | repeat constructor | repeat constructor | repeat constructor
     | repeat constructor | lia | lia | lia].
Defined.

(** ** Every query selected *)

(** C6: with every query selected ([n_top = L_Q]) and well-shaped inputs,
    dense attention returns a context of the shape [B, L_Q, H, D], but
    [ProbAttention.forward] returns none to compare it with: it ends in the
    ValueError of the gather of line 60. *)
Theorem C6_all_selected_no_context cfg g queries keys values attn_mask
    B L S H E D :
  has_shape4 queries B L H E -> has_shape4 keys B S H E ->
  has_shape4 values B S H D ->
  (0 < B)%nat -> (0 < H)%nat -> (0 < L)%nat -> (0 < S)%nat ->
  (mask_flag cfg = true -> L = S) ->
  ProbAttention.clip (factor cfg) (dim1 queries) = dim1 queries ->
  ProbAttention.forward cfg g queries keys values attn_mask = Err ValueError /\
  has_shape4 (FullAttention.forward cfg Eval queries keys values None).1
             B L H D.
Proof.
  intros Hq Hk Hv HB HH HL HS Hcausal _.
  split; [apply prob_forward_raises|].
  by apply (dense_context_has_shape cfg Eval queries keys values B L S H E D).
Qed.

Lemma C6_all_selected_witness :
  ProbAttention.forward ex_causal ex_rng ex_q2 ex_q2 ex_v1 None
  = Err ValueError /\
  has_shape4 (FullAttention.forward ex_causal Eval ex_q2 ex_q2 ex_v1 None).1
             1 2 1 1.
Proof.
  apply (C6_all_selected_no_context ex_causal ex_rng ex_q2 ex_q2 ex_v1 None
           1 2 2 1 1 1);
    [repeat constructor | repeat constructor | repeat constructor
     | lia | lia | lia | lia | reflexivity | exact clip_5_2].
Defined.
